(** * Invoice generator ([main.py]): a shallow embedding and its properties

    The program reads [data/products.csv], normalises every row into a
    line item (product, price, quantity, total) and renders one PDF table
    through ReportLab.

    Modelling conventions.
    - A Python [str] is a [string]; every [ascii] is read as the code point
      of the same number (U+0000 .. U+00FF).  Fixed Cyrillic texts of the
      program (messages, table labels, unit suffixes) are constructors of
      inductive types, not strings.
    - A Python [float] is an IEEE-754 binary64 number, [spec_float] with
      precision 53 and maximal exponent 1024; [float(str)] and the format
      [.2f] are correctly rounded (ties to even), as in CPython.
    - A [csv.DictReader] row is a finite map from column names to values
      that are a string or [None], plus the overflow list stored under the
      key [None] for rows longer than the header.
    - Console output, registration of the font and the calls into the
      operating system are events of a trace in the process state; calls
      that may raise are answered by an explicit environment. *)

From Stdlib Require Import ZArith String Ascii List Bool Lia.
From Stdlib Require Import DecimalString DecimalN DecimalPos.
From Stdlib Require Import Floats.SpecFloat.
From stdpp Require Import base gmap strings list.

Open Scope string_scope.

(* ================================================================== *)
(** * The built-in [str] methods used by the program *)
(* ================================================================== *)

Module PyStr.

(** [str.isspace] of one character below U+0100: TAB..CR, FS..US, SPACE,
    NEL and NO-BREAK SPACE. *)
Definition isspace (c : ascii) : bool :=
  let n := N_of_ascii c in
  ((9 <=? n) && (n <=? 13) || (28 <=? n) && (n <=? 32) || (n =? 133) || (n =? 160))%N.

Fixpoint lstrip (s : string) : string :=
  match s with
  | EmptyString => EmptyString
  | String c s' => if isspace c then lstrip s' else s
  end.

Fixpoint rstrip (s : string) : string :=
  match s with
  | EmptyString => EmptyString
  | String c s' =>
      match rstrip s' with
      | EmptyString => if isspace c then EmptyString else String c EmptyString
      | r => String c r
      end
  end.

(** [s.strip()] *)
Definition strip (s : string) : string := rstrip (lstrip s).

(** [s.replace(old, new)] for one-character [old] and [new]: every
    occurrence is replaced. *)
Fixpoint replace (old new : ascii) (s : string) : string :=
  match s with
  | EmptyString => EmptyString
  | String c s' =>
      String (if Ascii.eqb c old then new else c) (replace old new s')
  end.

(** What [replace(",", ".")] does to one character. *)
Definition comma_to_period (c : ascii) : ascii :=
  if Ascii.eqb c "," then "."%char else c.

(** Truth value of a string: the empty string is false. *)
Definition truthy (s : string) : bool :=
  match s with EmptyString => false | _ => true end.

(** [x or d] where [x] is a string or [None]. *)
Definition or_default (x : option string) (d : string) : string :=
  match x with
  | Some s => if truthy s then s else d
  | None => d
  end.

End PyStr.

(* ================================================================== *)
(** * Floats: [float(str)], multiplication and the format [.2f] *)
(* ================================================================== *)

Module PyFloat.

Definition prec : Z := 53.
Definition emax : Z := 1024.

Definition is_digit (c : ascii) : bool :=
  let n := N_of_ascii c in ((48 <=? n) && (n <=? 57))%N.

Definition digit_val (c : ascii) : Z := Z.of_N (N_of_ascii c) - 48.

(** ASCII lower case, as [Py_TOLOWER]. *)
Definition tolower (c : ascii) : ascii :=
  let n := N_of_ascii c in
  if ((65 <=? n) && (n <=? 90))%N then ascii_of_N (n + 32) else c.

(** White space as [float] sees it: the ASCII class, and the white space
    above U+007F, which the conversion first turns into a space. *)
Definition float_isspace (c : ascii) : bool :=
  let n := N_of_ascii c in
  ((9 <=? n) && (n <=? 13) || (n =? 32) || (n =? 133) || (n =? 160))%N.

Fixpoint skip_leading (s : string) : string :=
  match s with
  | EmptyString => EmptyString
  | String c s' => if float_isspace c then skip_leading s' else s
  end.

Fixpoint drop_trailing (s : string) : string :=
  match s with
  | EmptyString => EmptyString
  | String c s' =>
      match drop_trailing s' with
      | EmptyString => if float_isspace c then EmptyString else String c EmptyString
      | r => String c r
      end
  end.

(** Underscores are legal only between two digits; they are removed
    before the number is read.  [prev] is the previous character. *)
Fixpoint strip_underscores (prev : ascii) (s : string) : option string :=
  match s with
  | EmptyString => if Ascii.eqb prev "_" then None else Some EmptyString
  | String c s' =>
      if Ascii.eqb c "_" then
        if is_digit prev then strip_underscores c s' else None
      else if Ascii.eqb prev "_" && negb (is_digit c) then None
      else option_map (String c) (strip_underscores c s')
  end.

(** The nearest binary64 to [(-1)^neg * m * 10^e10], ties to even;
    overflow gives an infinity, underflow a subnormal or a zero. *)
Definition of_decimal (neg : bool) (m e10 : Z) : spec_float :=
  match m with
  | Zpos p =>
      if (0 <=? e10)%Z then
        binary_round prec emax neg (p * Z.to_pos (10 ^ e10)) 0
      else
        let '(q, e, l) := SFdiv_core_binary prec emax (Zpos p) 0 (10 ^ (- e10)) 0 in
        binary_round_aux prec emax neg q e l
  | _ => S754_zero neg
  end.

(** A maximal run of decimal digits: its value on top of [acc], the number
    of digits read on top of [cnt], and the rest. *)
Fixpoint take_digits (s : string) (acc cnt : Z) : Z * Z * string :=
  match s with
  | String c s' =>
      if is_digit c then take_digits s' (10 * acc + digit_val c)%Z (cnt + 1)%Z
      else (acc, cnt, s)
  | EmptyString => (acc, cnt, s)
  end.

Definition take_sign (s : string) : bool * string :=
  match s with
  | String "-" s' => (true, s')
  | String "+" s' => (false, s')
  | _ => (false, s)
  end.

(** The exponent part: [e] or [E], an optional sign and at least one
    digit; when it is malformed nothing is consumed. *)
Definition take_exponent (s : string) : Z * string :=
  match s with
  | String c s1 =>
      if Ascii.eqb (tolower c) "e" then
        let '(eneg, s2) := take_sign s1 in
        let '(ev, n, s3) := take_digits s2 0 0 in
        if (n =? 0)%Z then (0%Z, s) else ((if eneg then - ev else ev)%Z, s3)
      else (0%Z, s)
  | EmptyString => (0%Z, s)
  end.

(** [strtod]: sign, digits, optional point and digits, optional exponent.
    [None] when no digit was found; otherwise the value and the rest. *)
Definition strtod (s : string) : option (spec_float * string) :=
  let '(neg, s1) := take_sign s in
  let '(ip, ni, s2) := take_digits s1 0 0 in
  let '(m, nf, s3) :=
    match s2 with
    | String "." s2' => take_digits s2' ip 0
    | _ => (ip, 0%Z, s2)
    end in
  if (ni + nf =? 0)%Z then None
  else
    let '(e, s4) := take_exponent s3 in
    Some (of_decimal neg m (e - nf), s4).

(** Case-insensitive match of a lower-case word at the front of [s]. *)
Fixpoint match_word (word s : string) : option string :=
  match word with
  | EmptyString => Some s
  | String w word' =>
      match s with
      | String c s' => if Ascii.eqb (tolower c) w then match_word word' s' else None
      | EmptyString => None
      end
  end.

(** [inf], [infinity] and [nan] with an optional sign. *)
Definition parse_inf_or_nan (s : string) : option (spec_float * string) :=
  let '(neg, s1) := take_sign s in
  match match_word "inf" s1 with
  | Some s2 =>
      match match_word "inity" s2 with
      | Some s3 => Some (S754_infinity neg, s3)
      | None => Some (S754_infinity neg, s2)
      end
  | None =>
      match match_word "nan" s1 with
      | Some s2 => Some (S754_nan, s2)
      | None => None
      end
  end.

(** The inner conversion: surrounding white space is dropped and the whole
    remainder must be one number. *)
Definition float_inner (s : string) : option spec_float :=
  let t := drop_trailing (skip_leading s) in
  match strtod t with
  | Some (x, EmptyString) => Some x
  | Some (_, String _ _) => None
  | None =>
      match parse_inf_or_nan t with
      | Some (x, EmptyString) => Some x
      | _ => None
      end
  end.

Definition has_underscore (s : string) : bool :=
  existsb (fun c => Ascii.eqb c "_") (list_ascii_of_string s).

(** [float(s)] for a string [s]; [None] stands for [ValueError]. *)
Definition float (s : string) : option spec_float :=
  if has_underscore s then
    match strip_underscores "000" s with
    | Some t => float_inner t
    | None => None
    end
  else float_inner s.

(** [x * y] *)
Definition mul (x y : spec_float) : spec_float := SFmul prec emax x y.

(** The integer nearest to [a / b], ties to the even one ([0 <= a], [0 < b]). *)
Definition round_half_even (a b : Z) : Z :=
  let q := (a / b)%Z in
  match (2 * (a mod b) ?= b)%Z with
  | Lt => q
  | Gt => (q + 1)%Z
  | Eq => if Z.even q then q else (q + 1)%Z
  end.

(** The number of hundredths nearest to [m * 2^e]. *)
Definition hundredths (m : positive) (e : Z) : Z :=
  if (0 <=? e)%Z then (100 * Zpos m * 2 ^ e)%Z
  else round_half_even (100 * Zpos m) (2 ^ (- e)).

Definition digit_char (d : Z) : ascii := ascii_of_N (48 + Z.to_N d).

Definition decimal_of_Z (n : Z) : string :=
  NilZero.string_of_uint (N.to_uint (Z.to_N n)).

(** [n] hundredths written with two fraction digits. *)
Definition fixed2 (n : Z) : string :=
  decimal_of_Z (n / 100) ++ "." ++
  String (digit_char ((n mod 100) / 10)) (String (digit_char (n mod 10)) EmptyString).

Definition sign_prefix (neg : bool) : string := if neg then "-" else "".

(** [f"{x:.2f}"] *)
Definition format_2f (x : spec_float) : string :=
  match x with
  | S754_nan => "nan"
  | S754_infinity s => sign_prefix s ++ "inf"
  | S754_zero s => sign_prefix s ++ "0.00"
  | S754_finite s m e => sign_prefix s ++ fixed2 (hundredths m e)
  end.

(** ** What the claims say about a formatted total *)

Definition is_finite (x : spec_float) : bool :=
  match x with
  | S754_zero _ | S754_finite _ _ _ => true
  | _ => false
  end.

Fixpoint all_digits (s : string) : bool :=
  match s with
  | EmptyString => true
  | String c s' => is_digit c && all_digits s'
  end.

(** One or more digits, a period, exactly two digits, and nothing else. *)
Fixpoint digits_point_two_digits (s : string) : bool :=
  match s with
  | EmptyString => false
  | String c s' =>
      is_digit c &&
      (digits_point_two_digits s' ||
       match s' with
       | String "." (String a (String b EmptyString)) => is_digit a && is_digit b
       | _ => false
       end)
  end.

(** A decimal numeral with exactly two fraction digits, with or without a
    minus sign. *)
Definition two_fraction_digits (s : string) : bool :=
  match s with
  | String "-" s' => digits_point_two_digits s'
  | _ => digits_point_two_digits s
  end.

(** The number a string of decimal digits denotes. *)
Definition value_of_digits (s : string) : option Z :=
  option_map (fun d => Z.of_N (N.of_uint d)) (NilZero.uint_of_string s).

(** The text before and after the first period. *)
Fixpoint split_point (s : string) : option (string * string) :=
  match s with
  | EmptyString => None
  | String c s' =>
      if Ascii.eqb c "." then Some (EmptyString, s')
      else
        match split_point s' with
        | Some (a, b) => Some (String c a, b)
        | None => None
        end
  end.

(** The number of hundredths that a numeral with two fraction digits
    denotes: 12.34 denotes 1234 hundredths. *)
Definition unsigned_hundredths (s : string) : option Z :=
  match split_point s with
  | Some (ip, String a (String b EmptyString)) =>
      if is_digit a && is_digit b then
        match value_of_digits ip with
        | Some v => Some (100 * v + 10 * digit_val a + digit_val b)%Z
        | None => None
        end
      else None
  | _ => None
  end.

(** The same with the sign: whether the text starts with a minus, and the
    hundredths of the rest. *)
Definition hundredths_of_text (s : string) : option (bool * Z) :=
  match s with
  | String "-" t => option_map (pair true) (unsigned_hundredths t)
  | _ => option_map (pair false) (unsigned_hundredths s)
  end.

(** [n] hundredths is a nearest value with two fraction digits to
    [m * 2^e]: [|n/100 - m * 2^e| <= 1/200], stated over the integers after
    scaling by [2^k], [k = max 0 (-e)]. *)
Definition nearest_hundredth (m : positive) (e n : Z) : Prop :=
  let k := Z.max 0 (- e) in
  (0 <= n /\ 2 * Z.abs (n * 2 ^ k - 100 * Zpos m * 2 ^ (e + k)) <= 2 ^ k)%Z.

End PyFloat.

(* ================================================================== *)
(** * [csv.DictReader] *)
(* ================================================================== *)

Module Csv.

(** One row of a [DictReader]: the cells under the header's names, where
    [None] is the value of a column the row is too short for, and the
    surplus fields of a row longer than the header (stored by Python under
    the key [None]). *)
Record Row := mkRow {
  cells : gmap string (option string);
  restkey : option (list string)
}.

#[global] Instance Row_eq_dec : EqDecision Row.
Proof. solve_decision. Defined.

(** [row.get(key)] for a string key: [None] when the key is absent and
    when the stored value is [None]. *)
Definition get (row : Row) (key : string) : option string :=
  match cells row !! key with
  | Some v => v
  | None => None
  end.

(** [dict(zip(fieldnames, record))]: a later duplicate name wins. *)
Definition dict_zip (fieldnames record : list string) : gmap string (option string) :=
  fold_left (fun d kv => <[fst kv := Some (snd kv)]> d) (zip fieldnames record) ∅.

(** What [DictReader.__next__] makes of one non-empty record. *)
Definition to_row (fieldnames record : list string) : Row :=
  let d := dict_zip fieldnames record in
  let lf := List.length fieldnames in
  let lr := List.length record in
  if (lf <? lr)%nat then mkRow d (Some (drop lf record))
  else mkRow (fold_left (fun d key => <[key := None]> d) (drop lr fieldnames) d) None.

Definition is_blank_record (record : list string) : bool :=
  match record with [] => true | _ => false end.

(** [list(reader)] after the header has been read: empty records are
    passed over. *)
Definition rows_of (fieldnames : list string) (records : list (list string)) : list Row :=
  map (to_row fieldnames) (List.filter (fun r => negb (is_blank_record r)) records).

End Csv.

(* ================================================================== *)
(** * The row loop of [main] *)
(* ================================================================== *)

Import Csv.

(** A tuple [(product, price, qty, total)] of [table_rows]. *)
Record LineItem := mkItem {
  product : string;
  price : string;
  qty : string;
  total : string
}.

#[global] Instance LineItem_eq_dec : EqDecision LineItem.
Proof. solve_decision. Defined.

(** The texts the program prints. *)
Inductive message :=
| MsgFileNotFound
| MsgFontWarning
| MsgSchemaError
| MsgSkipRow (row : Row)
| MsgProcessing (product : string)
| MsgNoData
| MsgPdfError
| MsgDone
| MsgOpening.

Inductive stream := Stdout | Stderr.

(** [(row.get("product") or "").strip()] *)
Definition product_of (row : Row) : string :=
  PyStr.strip (PyStr.or_default (get row "product") "").

(** [(row.get(key) or "0").strip().replace(",", ".")] *)
Definition number_of (row : Row) (key : string) : string :=
  PyStr.replace "," "." (PyStr.strip (PyStr.or_default (get row key) "0")).

(** What one iteration of the loop does with its row. *)
Inductive verdict :=
| Blank
| Invalid
| Valid (item : LineItem).

Definition normalize (row : Row) : verdict :=
  let product := product_of row in
  let price := number_of row "price" in
  let qty := number_of row "qty" in
  if negb (PyStr.truthy product) then Blank
  else
    match PyFloat.float price with
    | None => Invalid
    | Some p =>
        match PyFloat.float qty with
        | None => Invalid
        | Some q =>
            let total_val := PyFloat.mul p q in
            Valid (mkItem product price qty (PyFloat.format_2f total_val))
        end
    end.

(** The line item of a row that reaches the table. *)
Definition kept (row : Row) : option LineItem :=
  match normalize row with
  | Valid item => Some item
  | _ => None
  end.

(** The loop state: [table_rows] and what has been printed so far. *)
Record LoopState := mkLoop {
  table_rows : list LineItem;
  printed : list (stream * message)
}.

Definition loop_body (st : LoopState) (row : Row) : LoopState :=
  match normalize row with
  | Blank => st
  | Invalid => mkLoop (table_rows st) (printed st ++ [(Stderr, MsgSkipRow row)])
  | Valid item =>
      mkLoop (table_rows st ++ [item])
             (printed st ++ [(Stdout, MsgProcessing (product item))])
  end.

Definition process_rows (rows_raw : list Row) : LoopState :=
  fold_left loop_body rows_raw (mkLoop [] []).

(** A row with commas in the cell under [key] turned into periods. *)
Definition periods_in (key : string) (row : Row) : Row :=
  mkRow (alter (option_map (PyStr.replace "," ".")) key (cells row)) (restkey row).

(** The rows of a file whose header is [product,price,qty]. *)
Definition header3 : list string := ["product"; "price"; "qty"].
Definition csv_row (fields : list string) : Row := to_row header3 fields.

Definition row_widget : Row := csv_row ["Widget"; "10.00"; "2"].
Definition row_gadget : Row := csv_row ["Gadget"; "5"; "3"].
Definition row_blank_product : Row := csv_row ["   "; "abc"; "1,5"].
Definition row_bad_price : Row := csv_row ["Bolt"; "abc"; "2"].
Definition row_space_price : Row := csv_row ["Nut"; " "; "2"].
Definition row_empty_price : Row := csv_row ["Nut"; ""; "2"].
Definition row_short : Row := csv_row ["Nut"].
Definition row_inf_price : Row := csv_row ["Widget"; "inf"; "1"].

(** Two loop states one after the other. *)
Definition loop_app (a b : LoopState) : LoopState :=
  mkLoop (table_rows a ++ table_rows b) (printed a ++ printed b).

(** The lines of one stream. *)
Definition on_stream (s : stream) (out : list (stream * message)) : list message :=
  omap (fun p => match fst p, s with
                 | Stdout, Stdout | Stderr, Stderr => Some (snd p)
                 | _, _ => None
                 end) out.

(* ================================================================== *)
(** * The process: exceptions, state and trace *)
(* ================================================================== *)

(** Exceptions by the only distinctions the program makes: [SystemExit]
    carries the exit code, [Exception] stands for every class derived from
    [Exception] (named for the record), [BaseException] for the others
    ([KeyboardInterrupt] and the like), which [except Exception] lets
    through. *)
Inductive exn :=
| Exception (name : string)
| BaseException (name : string)
| SystemExit (code : Z).

Definition is_Exception (e : exn) : bool :=
  match e with Exception _ => true | _ => false end.

Inductive result (A : Type) :=
| Return (a : A)
| Raise (e : exn).
Arguments Return {A} a.
Arguments Raise {A} e.

(** ReportLab objects, as far as the program determines them. *)
Inductive label := Title | ColProduct | ColPrice | ColQuantity | ColTotal.
Inductive unit_suffix := Roubles | Pieces.
Inductive text :=
| Fixed (l : label)
| Plain (s : string)
| WithUnit (s : string) (u : unit_suffix).
Inductive style := InvoiceHeading | Cell.

Record paragraph := mkParagraph { p_text : text; p_style : style }.

Record document := mkDocument {
  doc_path : string;
  doc_title : paragraph;
  doc_table : list (list paragraph)
}.

Inductive event :=
| EvPrint (s : stream) (m : message)
| EvRegisterFont (ok : bool)
| EvMakedirs
| EvOpenCsv
| EvReadHeader
| EvReadRows
| EvBuild (doc : document)
| EvStartfile.

(** The process state: the module-level flag [_font_registered] and the
    trace of what the process has done to the outside. *)
Record Proc := mkProc {
  font_registered : bool;
  trace : list event
}.

Definition initial : Proc := mkProc false [].

Definition M (A : Type) : Type := Proc -> result A * Proc.

Definition ret {A} (a : A) : M A := fun s => (Return a, s).

Definition bind {A B} (c : M A) (k : A -> M B) : M B :=
  fun s =>
    match c s with
    | (Return a, s') => k a s'
    | (Raise e, s') => (Raise e, s')
    end.

Notation "x <- c ;; k" := (bind c (fun x => k))
  (at level 20, c at level 99, k at level 200).
Notation "c ;; k" := (bind c (fun _ => k))
  (at level 100, k at level 200, right associativity).

Definition raise {A} (e : exn) : M A := fun s => (Raise e, s).

Definition log (ev : event) : M unit :=
  fun s => (Return tt, mkProc (font_registered s) (trace s ++ [ev])).

Definition print (st : stream) (m : message) : M unit := log (EvPrint st m).

Definition set_font_registered : M unit :=
  fun s => (Return tt, mkProc true (trace s)).

(** A library call that either returns or raises. *)
Definition call (raises : option exn) : M unit :=
  match raises with
  | None => ret tt
  | Some e => raise e
  end.

(** [sys.exit(code)] *)
Definition sys_exit {A} (code : Z) : M A := raise (SystemExit code).

(** [try: body except Exception: handler] *)
Definition try_except_Exception {A} (body handler : M A) : M A :=
  fun s =>
    match body s with
    | (Raise e, s') => if is_Exception e then handler s' else (Raise e, s')
    | r => r
    end.

(* ================================================================== *)
(** * [register_arial] *)
(* ================================================================== *)

(** What the environment answers during one call. *)
Record FontEnv := mkFontEnv {
  sys_platform : string;
  isfile_arial : bool;
  registerFont_raises : option exn
}.

Definition registerFont (fe : FontEnv) : M unit :=
  fun s =>
    match registerFont_raises fe with
    | None => log (EvRegisterFont true) s
    | Some e => (c <- log (EvRegisterFont false) ;; raise e) s
    end.

Definition register_arial (fe : FontEnv) : M bool :=
  fun s =>
    if font_registered s then ret true s
    else if negb (String.eqb (sys_platform fe) "win32") then ret false s
    else if negb (isfile_arial fe) then ret false s
    else
      try_except_Exception
        (registerFont fe ;; set_font_registered ;; ret true)
        (ret false) s.

(** Calls one after the other in one process, whatever each returns. *)
Fixpoint register_calls (fes : list FontEnv) (s : Proc) : list (result bool) * Proc :=
  match fes with
  | [] => ([], s)
  | fe :: fes' =>
      let '(r, s') := register_arial fe s in
      let '(rs, s'') := register_calls fes' s' in
      (r :: rs, s'')
  end.

Definition registrations (tr : list event) : nat :=
  List.length (List.filter (fun ev => match ev with EvRegisterFont true => true | _ => false end) tr).

Definition attempts (tr : list event) : nat :=
  List.length (List.filter (fun ev => match ev with EvRegisterFont _ => true | _ => false end) tr).

(** What holds of the flag and the trace throughout a run: at most one
    registration, and none while the flag is unset. *)
Definition font_invariant (s : Proc) : Prop :=
  (registrations (trace s) <= 1)%nat
  /\ (font_registered s = false -> registrations (trace s) = 0%nat).

(* ================================================================== *)
(** * [build_invoice_pdf] *)
(* ================================================================== *)

(** Which ReportLab calls raise, and what. *)
Record ReportLab := mkReportLab {
  SimpleDocTemplate_raises : string -> option exn;
  ParagraphStyle_raises : style -> option exn;
  Paragraph_raises : text -> style -> option exn;
  Table_raises : list (list paragraph) -> option exn;
  setStyle_raises : list (list paragraph) -> option exn;
  build_raises : document -> option exn
}.

Definition Paragraph (rl : ReportLab) (t : text) (st : style) : M paragraph :=
  call (Paragraph_raises rl t st) ;; ret (mkParagraph t st).

(** The loop that appends one table row per tuple of [rows]. *)
Fixpoint data_rows (rl : ReportLab) (rows : list LineItem) : M (list (list paragraph)) :=
  match rows with
  | [] => ret []
  | r :: rows' =>
      c1 <- Paragraph rl (Plain (product r)) Cell ;;
      c2 <- Paragraph rl (WithUnit (price r) Roubles) Cell ;;
      c3 <- Paragraph rl (WithUnit (qty r) Pieces) Cell ;;
      c4 <- Paragraph rl (WithUnit (total r) Roubles) Cell ;;
      rest <- data_rows rl rows' ;;
      ret ([c1; c2; c3; c4] :: rest)
  end.

(** The statements between the font check and [doc.build]: template,
    styles, title, table and its style; the result is the story to build. *)
Definition make_document (rl : ReportLab) (output_path : string)
    (rows : list LineItem) : M document :=
  call (SimpleDocTemplate_raises rl output_path) ;;
  call (ParagraphStyle_raises rl InvoiceHeading) ;;
  call (ParagraphStyle_raises rl Cell) ;;
  title <- Paragraph rl (Fixed Title) InvoiceHeading ;;
  h1 <- Paragraph rl (Fixed ColProduct) Cell ;;
  h2 <- Paragraph rl (Fixed ColPrice) Cell ;;
  h3 <- Paragraph rl (Fixed ColQuantity) Cell ;;
  h4 <- Paragraph rl (Fixed ColTotal) Cell ;;
  body <- data_rows rl rows ;;
  let data := [h1; h2; h3; h4] :: body in
  call (Table_raises rl data) ;;
  call (setStyle_raises rl data) ;;
  ret (mkDocument output_path title data).

Definition build_invoice_pdf (fe : FontEnv) (rl : ReportLab)
    (output_path : string) (rows : list LineItem) : M bool :=
  ok <- register_arial fe ;;
  if negb ok then ret false
  else
    doc <- make_document rl output_path rows ;;
    try_except_Exception
      (log (EvBuild doc) ;; call (build_raises rl doc) ;; ret true)
      (ret false).

(** The story the construction yields when no call raises. *)
Definition header_cells : list paragraph :=
  [mkParagraph (Fixed ColProduct) Cell; mkParagraph (Fixed ColPrice) Cell;
   mkParagraph (Fixed ColQuantity) Cell; mkParagraph (Fixed ColTotal) Cell].

Definition cells_of (r : LineItem) : list paragraph :=
  [mkParagraph (Plain (product r)) Cell;
   mkParagraph (WithUnit (price r) Roubles) Cell;
   mkParagraph (WithUnit (qty r) Pieces) Cell;
   mkParagraph (WithUnit (total r) Roubles) Cell].

Definition story_of (output_path : string) (rows : list LineItem) : document :=
  mkDocument output_path (mkParagraph (Fixed Title) InvoiceHeading)
    (header_cells :: map cells_of rows).

(** Environments used in the examples. *)
Definition fe_ok : FontEnv := mkFontEnv "win32" true None.
Definition fe_no_file : FontEnv := mkFontEnv "win32" false None.
Definition fe_broken : FontEnv := mkFontEnv "win32" true (Some (Exception "TTFError")).

Definition rl_ok : ReportLab :=
  mkReportLab (fun _ => None) (fun _ => None) (fun _ _ => None)
    (fun _ => None) (fun _ => None) (fun _ => None).

(** A ReportLab in which the paragraph text <b>Widget, whose tag is never
    closed, is rejected as malformed markup. *)
Definition rl_bad_markup : ReportLab :=
  mkReportLab (fun _ => None) (fun _ => None)
    (fun t _ => match t with
                | Plain s => if String.eqb s "<b>Widget" then Some (Exception "ValueError") else None
                | _ => None
                end)
    (fun _ => None) (fun _ => None) (fun _ => None).

(** A ReportLab whose [doc.build] cannot write the file. *)
Definition rl_disk_full : ReportLab :=
  mkReportLab (fun _ => None) (fun _ => None) (fun _ _ => None)
    (fun _ => None) (fun _ => None) (fun _ => Some (Exception "OSError")).

(** A ReportLab whose [doc.build] is interrupted from the keyboard. *)
Definition rl_interrupted : ReportLab :=
  mkReportLab (fun _ => None) (fun _ => None) (fun _ _ => None)
    (fun _ => None) (fun _ => None) (fun _ => Some (BaseException "KeyboardInterrupt")).

Definition item_widget : LineItem := mkItem "Widget" "10.00" "2" "20.00".
Definition item_bad_markup : LineItem := mkItem "<b>Widget" "1" "1" "1.00".

(* ================================================================== *)
(** * [main] *)
(* ================================================================== *)

(** The environment of one run. *)
Record World := mkWorld {
  isfile_csv : bool;
  font_at_startup : FontEnv;
  font_at_render : FontEnv;
  makedirs_raises : option exn;
  open_raises : option exn;
  (** the first record the reader yields ([None] at the end of the file),
      or what reading it raises *)
  csv_header : result (option (list string));
  (** the records after the first, or what reading them raises *)
  csv_records : result (list (list string));
  reportlab : ReportLab;
  isfile_pdf : bool;
  startfile_raises : option exn
}.

Definition pdf_path : string := "output/invoice.pdf".

Definition lift {A} (r : result A) : M A :=
  match r with
  | Return a => ret a
  | Raise e => raise e
  end.

Fixpoint print_all (out : list (stream * message)) : M unit :=
  match out with
  | [] => ret tt
  | (st, m) :: out' => print st m ;; print_all out'
  end.

(** [not fieldnames or "product" not in fieldnames] *)
Definition schema_rejected (fieldnames : option (list string)) : bool :=
  match fieldnames with
  | None => true
  | Some [] => true
  | Some names => negb (existsb (String.eqb "product") names)
  end.

Definition main (w : World) : M unit :=
  if negb (isfile_csv w) then
    print Stderr MsgFileNotFound ;; sys_exit 1
  else
    ok <- register_arial (font_at_startup w) ;;
    (if negb ok then print Stderr MsgFontWarning else ret tt) ;;
    log EvMakedirs ;; call (makedirs_raises w) ;;
    log EvOpenCsv ;; call (open_raises w) ;;
    log EvReadHeader ;;
    fieldnames <- lift (csv_header w) ;;
    if schema_rejected fieldnames then
      print Stderr MsgSchemaError ;; sys_exit 1
    else
      log EvReadRows ;;
      records <- lift (csv_records w) ;;
      let rows_raw := rows_of (default [] fieldnames) records in
      let st := process_rows rows_raw in
      print_all (printed st) ;;
      if negb (match table_rows st with [] => false | _ => true end) then
        print Stderr MsgNoData ;; sys_exit 1
      else
        built <- build_invoice_pdf (font_at_render w) (reportlab w) pdf_path (table_rows st) ;;
        if negb built then
          print Stderr MsgPdfError ;; sys_exit 1
        else
          print Stdout MsgDone ;;
          if isfile_pdf w then
            print Stdout MsgOpening ;; log EvStartfile ;; call (startfile_raises w)
          else ret tt.

(** The same environment with other records after the header. *)
Definition with_records (w : World) (records : result (list (list string))) : World :=
  mkWorld (isfile_csv w) (font_at_startup w) (font_at_render w)
    (makedirs_raises w) (open_raises w) (csv_header w) records
    (reportlab w) (isfile_pdf w) (startfile_raises w).

(** The events of reading and processing data rows. *)
Definition row_event (ev : event) : bool :=
  match ev with
  | EvReadRows => true
  | EvPrint _ (MsgSkipRow _) => true
  | EvPrint _ (MsgProcessing _) => true
  | _ => false
  end.

(** A computation adds to the trace only events that satisfy [P]. *)
Definition emits {A} (P : event -> Prop) (c : M A) : Prop :=
  forall s r s',
    c s = (r, s') ->
    exists evs, trace s' = (trace s ++ evs)%list /\ Forall P evs.

(** An event that is a [doc.build] builds the story of the table rows of
    the file. *)
Definition builds_the_table (w : World) (ev : event) : Prop :=
  forall doc,
    ev = EvBuild doc ->
    exists names records,
      csv_header w = Return (Some names)
      /\ csv_records w = Return records
      /\ doc = story_of pdf_path (table_rows (process_rows (rows_of names records))).

(** A run on a file whose header is name,price,qty. *)
Definition world_no_product : World :=
  mkWorld true fe_ok fe_ok None None
    (Return (Some ["name"; "price"; "qty"]))
    (Return [["Widget"; "10.00"; "2"]; ["Gadget"; "abc"; "3"]])
    rl_ok true None.

(** A run on a file with a blank row, a row that does not parse and a
    valid row. *)
Definition world_mixed : World :=
  mkWorld true fe_ok fe_ok None None
    (Return (Some ["product"; "price"; "qty"]))
    (Return [["   "; "abc"; "1,5"]; ["Bolt"; "abc"; "2"]; ["Gadget"; "5"; "3"]])
    rl_ok true None.

(** The exit status of the process: 0 on return, the code of
    [SystemExit], 1 for any other uncaught exception. *)
Definition exit_status (r : result unit) : Z :=
  match r with
  | Return _ => 0
  | Raise (SystemExit code) => code
  | Raise _ => 1
  end.

Definition run (w : World) : Z * list event :=
  let '(r, s) := main w initial in (exit_status r, trace s).

(* ================================================================== *)
(** * [safe_filename] *)
(* ================================================================== *)

(** The characters that a Windows file name may not hold:
    less-than, greater-than, colon, double quote, slash, backslash,
    vertical bar, question mark and asterisk, in the order of the source. *)
Definition invalid : list ascii :=
  ["<"; ">"; ":"; "034"; "/"; "\"; "|"; "?"; "*"]%char.

(** The loop [for c in invalid: product = product.replace(c, "_")]. *)
Definition replace_invalid (product : string) : string :=
  fold_left (fun p c => PyStr.replace c "_" p) invalid product.

Definition safe_filename (product : string) : string :=
  PyStr.or_default (Some (PyStr.strip (replace_invalid product))) "invoice".

(* ================================================================== *)
(** * Readings of the loop and of the process used in the statements *)
(* ================================================================== *)




(** A run on a file whose rows are all blank or unparsable. *)
Definition world_no_data : World :=
  mkWorld true fe_ok fe_ok None None
    (Return (Some ["product"; "price"; "qty"]))
    (Return [["   "; "abc"; "1,5"]; ["Bolt"; "abc"; "2"]])
    rl_ok true None.

(** A run on a good file on a platform that is not win32. *)
Definition fe_linux : FontEnv := mkFontEnv "linux" true None.
Definition world_linux : World :=
  mkWorld true fe_linux fe_linux None None
    (Return (Some ["product"; "price"; "qty"]))
    (Return [["Widget"; "10.00"; "2"]])
    rl_ok true None.

(** A run on a good file with everything in place. *)
Definition world_good : World :=
  mkWorld true fe_ok fe_ok None None
    (Return (Some ["product"; "price"; "qty"]))
    (Return [["Widget"; "10.00"; "2"]])
    rl_ok true None.

(** The events of a list of printed lines. *)
Definition events_of (out : list (stream * message)) : list event :=
  map (fun p => EvPrint (fst p) (snd p)) out.

(** The process state when the loop over the rows is over: [s1] is the
    state after the font check at startup, [ok] its result. *)
Definition after_rows (ok : bool) (s1 : Proc) (st : LoopState) : Proc :=
  mkProc (font_registered s1)
    (trace s1 ++ (if ok then [] else [EvPrint Stderr MsgFontWarning])
     ++ [EvMakedirs; EvOpenCsv; EvReadHeader; EvReadRows]
     ++ events_of (printed st)).

(** The statements of [main] after the loop over the rows. *)
Definition finish (w : World) (st : LoopState) : M unit :=
  if negb (match table_rows st with [] => false | _ => true end) then
    print Stderr MsgNoData ;; sys_exit 1
  else
    built <- build_invoice_pdf (font_at_render w) (reportlab w) pdf_path (table_rows st) ;;
    if negb built then
      print Stderr MsgPdfError ;; sys_exit 1
    else
      print Stdout MsgDone ;;
      if isfile_pdf w then
        print Stdout MsgOpening ;; log EvStartfile ;; call (startfile_raises w)
      else ret tt.

(** A Hoare triple over the process monad: from a state that satisfies
    [P], whatever [c] returns or raises, with whatever final state,
    satisfies [Q]. *)
Definition triple {A} (P : Proc -> Prop) (c : M A)
    (Q : result A -> Proc -> Prop) : Prop :=
  forall s r s', P s -> c s = (r, s') -> Q r s'.

(** No document has been built and the font is not registered. *)
Definition nothing_built (s : Proc) : Prop :=
  font_registered s = false /\ forall doc, ~ In (EvBuild doc) (trace s).

(** The number of occurrences of a character in a text. *)
Fixpoint count_char (c : ascii) (s : string) : nat :=
  match s with
  | EmptyString => 0
  | String a s' => (if Ascii.eqb a c then 1 else 0) + count_char c s'
  end.

(** A computation looks at the trace never and at the flag only: from a
    given flag it returns the same result, sets the same flag and appends
    the same events, whatever the trace so far. *)
Definition uniform {A} (c : M A) : Prop :=
  forall f, exists r f' evs,
    forall tr, c (mkProc f tr) = (r, mkProc f' (tr ++ evs)).

(* ================================================================== *)
(** * Properties of the string helpers *)
(* ================================================================== *)

Section StrFacts.
Import PyStr.

Lemma isspace_comma_to_period c : isspace (comma_to_period c) = isspace c.
Proof.
  unfold comma_to_period.
  destruct (Ascii.eqb_spec c ","%char) as [-> | _]; reflexivity.
Qed.

Lemma replace_cons c s :
  replace "," "." (String c s) = String (comma_to_period c) (replace "," "." s).
Proof. reflexivity. Qed.

Lemma lstrip_replace s :
  lstrip (replace "," "." s) = replace "," "." (lstrip s).
Proof.
  induction s as [| c s IH]; [reflexivity |].
  rewrite replace_cons. cbn [lstrip].
  rewrite isspace_comma_to_period.
  destruct (isspace c); [exact IH | reflexivity].
Qed.

Lemma rstrip_replace s :
  rstrip (replace "," "." s) = replace "," "." (rstrip s).
Proof.
  induction s as [| c s IH]; [reflexivity |].
  rewrite replace_cons. cbn [rstrip]. rewrite IH.
  destruct (rstrip s) as [| d r].
  - cbn [replace]. rewrite isspace_comma_to_period.
    destruct (isspace c); reflexivity.
  - reflexivity.
Qed.

Lemma strip_replace s :
  strip (replace "," "." s) = replace "," "." (strip s).
Proof. unfold strip. now rewrite lstrip_replace, rstrip_replace. Qed.

Lemma replace_idempotent s :
  replace "," "." (replace "," "." s) = replace "," "." s.
Proof.
  induction s as [| c s IH]; [reflexivity |].
  rewrite !replace_cons, IH. f_equal.
  unfold comma_to_period.
  destruct (Ascii.eqb_spec c ","%char) as [-> | Hc]; [reflexivity |].
  destruct (Ascii.eqb_spec c ","%char); [contradiction | reflexivity].
Qed.

Lemma truthy_replace s : truthy (replace "," "." s) = truthy s.
Proof. destruct s; reflexivity. Qed.

(** Position by position, [replace] turns commas into periods and keeps
    every other character. *)
Lemma get_replace s i :
  String.get i (replace "," "." s) = option_map comma_to_period (String.get i s).
Proof.
  revert i. induction s as [| c s IH]; intros i; [reflexivity |].
  rewrite replace_cons. destruct i as [| i]; [reflexivity | apply IH].
Qed.

Lemma replace_no_comma s i : String.get i (replace "," "." s) <> Some ","%char.
Proof.
  rewrite get_replace. destruct (String.get i s) as [c |]; [| discriminate].
  cbn. unfold comma_to_period.
  destruct (Ascii.eqb_spec c ","%char) as [-> | Hc]; congruence.
Qed.

Lemma or_default_replace (x : option string) :
  or_default (option_map (replace "," ".") x) "0"
  = replace "," "." (or_default x "0").
Proof.
  destruct x as [s |]; [| reflexivity].
  cbn. rewrite truthy_replace. destruct (truthy s); reflexivity.
Qed.

End StrFacts.

(* ================================================================== *)
(** * Properties of the row loop *)
(* ================================================================== *)

Section LoopFacts.

Lemma loop_app_nil_r a : loop_app a (mkLoop [] []) = a.
Proof. destruct a. unfold loop_app. cbn. now rewrite !app_nil_r. Qed.

Lemma loop_body_app a b row :
  loop_body (loop_app a b) row = loop_app a (loop_body b row).
Proof.
  unfold loop_body. destruct (normalize row); unfold loop_app; cbn;
    now rewrite <- ?app_assoc.
Qed.

Lemma fold_loop_app rows a b :
  fold_left loop_body rows (loop_app a b) = loop_app a (fold_left loop_body rows b).
Proof.
  revert b. induction rows as [| row rows IH]; intros b; [reflexivity |].
  cbn [fold_left]. rewrite loop_body_app. apply IH.
Qed.

Lemma fold_loop rows st :
  fold_left loop_body rows st = loop_app st (process_rows rows).
Proof.
  unfold process_rows. rewrite <- fold_loop_app. now rewrite loop_app_nil_r.
Qed.

Lemma process_rows_app rows1 rows2 :
  process_rows (rows1 ++ rows2) = loop_app (process_rows rows1) (process_rows rows2).
Proof.
  unfold process_rows at 1. rewrite fold_left_app.
  fold (process_rows rows1). apply fold_loop.
Qed.

Lemma process_rows_cons row rows :
  process_rows (row :: rows) = loop_app (process_rows [row]) (process_rows rows).
Proof. apply (process_rows_app [row] rows). Qed.

Lemma on_stream_app s out1 out2 :
  on_stream s (out1 ++ out2) = (on_stream s out1 ++ on_stream s out2)%list.
Proof. unfold on_stream. apply omap_app. Qed.

End LoopFacts.

Section RowFacts.
Import PyStr PyFloat.

Lemma get_periods_in_same key row :
  get (periods_in key row) key = option_map (replace "," ".") (get row key).
Proof.
  unfold get, periods_in. cbn [cells].
  rewrite lookup_alter, decide_True by reflexivity.
  destruct (cells row !! key) as [v |]; reflexivity.
Qed.

Lemma get_periods_in_other key key' row :
  key <> key' -> get (periods_in key row) key' = get row key'.
Proof.
  intros Hne. unfold get, periods_in. cbn [cells].
  now rewrite lookup_alter, decide_False by assumption.
Qed.

Lemma number_of_periods_in_same key row :
  number_of (periods_in key row) key = number_of row key.
Proof.
  unfold number_of. rewrite get_periods_in_same, or_default_replace.
  now rewrite strip_replace, replace_idempotent.
Qed.

Lemma number_of_periods_in_other key key' row :
  key <> key' -> number_of (periods_in key row) key' = number_of row key'.
Proof. intros Hne. unfold number_of. now rewrite get_periods_in_other. Qed.

Lemma product_of_periods_in key row :
  key <> "product" -> product_of (periods_in key row) = product_of row.
Proof. intros Hne. unfold product_of. now rewrite get_periods_in_other. Qed.

Lemma normalize_blank row :
  truthy (product_of row) = false -> normalize row = Blank.
Proof. intros H. unfold normalize. now rewrite H. Qed.

Lemma normalize_invalid row :
  truthy (product_of row) = true ->
  float (number_of row "price") = None \/ float (number_of row "qty") = None ->
  normalize row = Invalid.
Proof.
  intros Hp H. unfold normalize. rewrite Hp. cbn [negb].
  destruct H as [-> | H]; [reflexivity |].
  rewrite H. now destruct (float (number_of row "price")).
Qed.

Lemma normalize_valid row p q :
  truthy (product_of row) = true ->
  float (number_of row "price") = Some p ->
  float (number_of row "qty") = Some q ->
  normalize row =
    Valid (mkItem (product_of row) (number_of row "price") (number_of row "qty")
                  (format_2f (mul p q))).
Proof. intros Hp Hx Hy. unfold normalize. now rewrite Hp, Hx, Hy. Qed.

(** What a kept row looks like, read off the loop body. *)
Lemma normalize_Valid_inv row item :
  normalize row = Valid item ->
  truthy (product item) = true
  /\ product item = product_of row
  /\ price item = number_of row "price"
  /\ qty item = number_of row "qty"
  /\ exists p q,
       float (price item) = Some p /\ float (qty item) = Some q
       /\ total item = format_2f (mul p q).
Proof.
  unfold normalize.
  destruct (truthy (product_of row)) eqn:Hp; cbn [negb]; [| discriminate].
  destruct (float (number_of row "price")) as [p |] eqn:Hx; [| discriminate].
  destruct (float (number_of row "qty")) as [q |] eqn:Hy; [| discriminate].
  intros [= <-]. cbn. repeat split; try assumption. now exists p, q.
Qed.

End RowFacts.

(* ================================================================== *)
(** * The row normaliser: the claims about single rows *)
(* ================================================================== *)

(** C8. A row whose product is empty after trimming is passed over in
    silence: whatever its price and quantity, it adds nothing to the table
    and prints nothing, and the loop over a file with the row gives what
    the loop over the file without it gives. *)
Theorem blank_product_row_is_skipped_silently
    (before after : list Row) (row : Row) :
  PyStr.truthy (product_of row) = false ->
  normalize row = Blank
  /\ process_rows [row] = mkLoop [] []
  /\ process_rows (before ++ row :: after) = process_rows (before ++ after).
Proof.
  intros Hblank.
  assert (Hrow : process_rows [row] = mkLoop [] []).
  { unfold process_rows. cbn [fold_left]. unfold loop_body.
    now rewrite (normalize_blank row Hblank). }
  split; [now apply normalize_blank |]. split; [exact Hrow |].
  rewrite !process_rows_app, (process_rows_cons row after), Hrow.
  unfold loop_app. cbn. reflexivity.
Qed.

Lemma blank_product_row_is_skipped_silently_witness :
  PyStr.truthy (product_of row_blank_product) = false
  /\ process_rows ([row_widget] ++ row_blank_product :: [row_gadget])
     = process_rows ([row_widget] ++ [row_gadget]).
Proof.
  split; [reflexivity |].
  apply (blank_product_row_is_skipped_silently [row_widget] [row_gadget] row_blank_product).
  reflexivity.
Defined.

(** C6. A comma is read as a period: turning the commas of the price cell,
    or of the quantity cell, into periods changes nothing in what the
    normaliser makes of the row (the same line item with the same total, or
    the same rejection); prices 1,50 and 1.50 with quantity 1 both give the
    total 1.50. *)
Theorem comma_and_period_are_interchangeable (row : Row) :
  normalize (periods_in "price" row) = normalize row
  /\ normalize (periods_in "qty" row) = normalize row
  /\ normalize (csv_row ["Tea"; "1,50"; "1"]) = Valid (mkItem "Tea" "1.50" "1" "1.50")
  /\ normalize (csv_row ["Tea"; "1.50"; "1"]) = Valid (mkItem "Tea" "1.50" "1" "1.50").
Proof.
  repeat split; try reflexivity.
  - unfold normalize.
    rewrite product_of_periods_in by discriminate.
    rewrite number_of_periods_in_same.
    now rewrite number_of_periods_in_other by discriminate.
  - unfold normalize.
    rewrite product_of_periods_in by discriminate.
    rewrite number_of_periods_in_same.
    now rewrite number_of_periods_in_other by discriminate.
Qed.

(* ================================================================== *)
(** * Properties of the format [.2f] *)
(* ================================================================== *)

Section FormatFacts.
Import PyFloat.
Local Open Scope Z_scope.

Lemma round_half_even_nearest a b :
  0 <= a -> 0 < b ->
  0 <= round_half_even a b /\ 2 * Z.abs (round_half_even a b * b - a) <= b.
Proof.
  intros Ha Hb. unfold round_half_even.
  pose proof (Z.div_mod a b ltac:(lia)) as Hdm.
  pose proof (Z.mod_pos_bound a b Hb) as Hr.
  pose proof (Z.div_pos a b Ha Hb) as Hq.
  destruct (Z.compare_spec (2 * (a mod b)) b) as [Heq | Hlt | Hgt].
  - destruct (Z.even (a / b)); split; nia.
  - split; nia.
  - split; nia.
Qed.

Lemma hundredths_nearest m e : nearest_hundredth m e (hundredths m e).
Proof.
  unfold nearest_hundredth, hundredths.
  destruct (Z.leb_spec 0 e) as [He | He].
  - rewrite Z.max_l by lia. rewrite Z.add_0_r, Z.pow_0_r.
    assert (0 < 2 ^ e) by (apply Z.pow_pos_nonneg; lia).
    split; [nia |].
    replace (100 * Z.pos m * 2 ^ e * 1 - 100 * Z.pos m * 2 ^ e) with 0 by ring.
    cbn. lia.
  - rewrite Z.max_r by lia.
    replace (e + - e) with 0 by ring. rewrite Z.pow_0_r, Z.mul_1_r.
    assert (0 < 2 ^ (- e)) by (apply Z.pow_pos_nonneg; lia).
    apply round_half_even_nearest; lia.
Qed.

Lemma is_digit_digit_char d : 0 <= d <= 9 -> is_digit (digit_char d) = true.
Proof.
  intros Hd.
  assert (d = 0 \/ d = 1 \/ d = 2 \/ d = 3 \/ d = 4 \/ d = 5 \/ d = 6
          \/ d = 7 \/ d = 8 \/ d = 9) as H by lia.
  repeat (destruct H as [-> | H]; [reflexivity |]). now subst.
Qed.

Lemma append_cons c (s t : string) : (String c s ++ t)%string = String c (s ++ t)%string.
Proof. reflexivity. Qed.

Lemma append_nil (t : string) : (EmptyString ++ t)%string = t.
Proof. reflexivity. Qed.

Lemma all_digits_string_of_uint d : all_digits (NilEmpty.string_of_uint d) = true.
Proof. induction d; cbn; auto. Qed.

Lemma decimal_of_Z_digits n :
  exists c s, decimal_of_Z n = String c s /\ all_digits (String c s) = true.
Proof.
  unfold decimal_of_Z.
  destruct (N.to_uint (Z.to_N n)) as [| d | d | d | d | d | d | d | d | d | d] eqn:E;
    cbn [NilZero.string_of_uint NilEmpty.string_of_uint];
    eexists _, _; (split; [reflexivity |]); cbn [all_digits];
    rewrite ?all_digits_string_of_uint; reflexivity.
Qed.

Lemma digits_point_two_digits_app d a b :
  d <> EmptyString -> all_digits d = true ->
  is_digit a = true -> is_digit b = true ->
  digits_point_two_digits (d ++ String "." (String a (String b EmptyString)))%string = true.
Proof.
  intros Hne Hd Ha Hb. induction d as [| c d IH]; [congruence |].
  cbn [all_digits] in Hd. apply andb_prop in Hd as [Hc Hd].
  rewrite append_cons. cbn [digits_point_two_digits]. rewrite Hc. cbn [andb].
  destruct d as [| c' d'].
  - rewrite append_nil, Ha, Hb. apply orb_true_r.
  - rewrite IH by (congruence || assumption). reflexivity.
Qed.

Lemma fixed2_shape n : 0 <= n -> digits_point_two_digits (fixed2 n) = true.
Proof.
  intros Hn. unfold fixed2.
  destruct (decimal_of_Z_digits (n / 100)) as (c & s & -> & Hd).
  assert (0 <= n mod 100 < 100) by (apply Z.mod_pos_bound; lia).
  assert (0 <= n mod 10 < 10) by (apply Z.mod_pos_bound; lia).
  change ("." ++ ?x)%string with (String "."%char x).
  apply digits_point_two_digits_app; try assumption; try discriminate.
  - apply is_digit_digit_char.
    split; [apply Z.div_pos; lia | apply Z.lt_succ_r, Z.div_lt_upper_bound; lia].
  - apply is_digit_digit_char. lia.
Qed.

Lemma fixed2_not_minus n : exists c s, fixed2 n = String c s /\ is_digit c = true.
Proof.
  unfold fixed2. destruct (decimal_of_Z_digits (n / 100)) as (c & s & -> & Hd).
  cbn [all_digits] in Hd. apply andb_prop in Hd as [Hc _].
  rewrite append_cons. eauto.
Qed.

Lemma two_fraction_digits_signed neg n :
  0 <= n -> two_fraction_digits (sign_prefix neg ++ fixed2 n)%string = true.
Proof.
  intros Hn. destruct neg; cbn [sign_prefix].
  - rewrite append_cons, append_nil. cbn [two_fraction_digits].
    now apply fixed2_shape.
  - destruct (fixed2_not_minus n) as (c & s & E & Hc).
    pose proof (fixed2_shape n Hn) as Hs. rewrite append_nil. rewrite E in *.
    unfold two_fraction_digits.
    destruct (Ascii.eqb_spec c "-"%char) as [-> | Hne]; [discriminate Hc |].
    destruct c as [[] [] [] [] [] [] [] []]; try exact Hs. congruence.
Qed.

Lemma value_of_digits_decimal n : 0 <= n -> value_of_digits (decimal_of_Z n) = Some n.
Proof.
  intros Hn. unfold value_of_digits, decimal_of_Z.
  rewrite NilZero.usu.
  - cbn [option_map]. rewrite DecimalN.Unsigned.of_to. f_equal. lia.
  - destruct (Z.to_N n) as [| p]; [discriminate |].
    apply DecimalPos.Unsigned.to_uint_nonnil.
Qed.

Lemma split_point_app d r :
  all_digits d = true -> split_point (d ++ String "." r)%string = Some (d, r).
Proof.
  induction d as [| c d IH]; intros Hd; [reflexivity |].
  cbn [all_digits] in Hd. apply andb_prop in Hd as [Hc Hd].
  rewrite append_cons. cbn [split_point].
  destruct (Ascii.eqb_spec c "."%char) as [-> | _]; [discriminate Hc |].
  now rewrite (IH Hd).
Qed.

Lemma digit_val_digit_char d : 0 <= d <= 9 -> digit_val (digit_char d) = d.
Proof.
  intros Hd.
  assert (d = 0 \/ d = 1 \/ d = 2 \/ d = 3 \/ d = 4 \/ d = 5 \/ d = 6
          \/ d = 7 \/ d = 8 \/ d = 9) as H by lia.
  repeat (destruct H as [-> | H]; [reflexivity |]). now subst.
Qed.

(** Reading back what [fixed2] wrote gives the hundredths it was given. *)
Lemma unsigned_hundredths_fixed2 n : 0 <= n -> unsigned_hundredths (fixed2 n) = Some n.
Proof.
  intros Hn. unfold fixed2, unsigned_hundredths.
  assert (Hq : 0 <= n / 100) by (apply Z.div_pos; lia).
  assert (Ha : 0 <= n mod 100 / 10 <= 9).
  { pose proof (Z.mod_pos_bound n 100 ltac:(lia)).
    split; [apply Z.div_pos; lia | apply Z.lt_succ_r, Z.div_lt_upper_bound; lia]. }
  assert (Hb : 0 <= n mod 10 <= 9) by (pose proof (Z.mod_pos_bound n 10 ltac:(lia)); lia).
  pose proof (value_of_digits_decimal (n / 100) Hq) as Hv.
  destruct (decimal_of_Z_digits (n / 100)) as (c & s & E & Hd).
  rewrite E in *.
  change ("." ++ ?x)%string with (String "."%char x).
  rewrite (split_point_app _ _ Hd), !is_digit_digit_char by assumption.
  cbn [andb]. rewrite Hv, !digit_val_digit_char by assumption.
  f_equal.
  pose proof (Z.div_mod n 100 ltac:(lia)).
  pose proof (Z.div_mod (n mod 100) 10 ltac:(lia)).
  assert ((n mod 100) mod 10 = n mod 10).
  { apply Z.mod_mod_divide. now exists 10. }
  lia.
Qed.

Lemma hundredths_of_text_signed neg n :
  0 <= n -> hundredths_of_text (sign_prefix neg ++ fixed2 n)%string = Some (neg, n).
Proof.
  intros Hn. destruct neg; cbn [sign_prefix].
  - rewrite append_cons, append_nil. cbn [hundredths_of_text].
    now rewrite unsigned_hundredths_fixed2.
  - rewrite append_nil.
    destruct (fixed2_not_minus n) as (c & s & E & Hc).
    pose proof (unsigned_hundredths_fixed2 n Hn) as Hs. rewrite E in *.
    unfold hundredths_of_text.
    destruct (Ascii.eqb_spec c "-"%char) as [-> | Hne]; [discriminate Hc |].
    destruct c as [[] [] [] [] [] [] [] []]; try (now rewrite Hs). congruence.
Qed.

(** A finite float is written with exactly two fraction digits, and the
    text denotes a nearest number of hundredths, with the sign of the
    float. *)
Lemma format_2f_finite x :
  is_finite x = true ->
  two_fraction_digits (format_2f x) = true
  /\ match x with
     | S754_finite s m e =>
         exists n, hundredths_of_text (format_2f x) = Some (s, n)
                   /\ nearest_hundredth m e n
     | S754_zero s => hundredths_of_text (format_2f x) = Some (s, 0)
     | _ => False
     end.
Proof.
  destruct x as [s | s | | s m e]; cbn [is_finite]; try discriminate; intros _.
  - split; destruct s; reflexivity.
  - pose proof (hundredths_nearest m e) as Hn.
    split.
    + cbn [format_2f]. apply two_fraction_digits_signed. apply Hn.
    + exists (hundredths m e). split; [| exact Hn].
      cbn [format_2f]. apply hundredths_of_text_signed. apply Hn.
Qed.

Lemma format_2f_not_finite x :
  is_finite x = false ->
  format_2f x = "inf"%string \/ format_2f x = "-inf"%string \/ format_2f x = "nan"%string.
Proof.
  destruct x as [s | s | | s m e]; cbn [is_finite]; try discriminate; intros _.
  - destruct s; cbn; auto.
  - cbn; auto.
Qed.

End FormatFacts.

Section TableFacts.

(** The table is made of the valid rows, in the order of the file. *)
Lemma table_rows_omap rows : table_rows (process_rows rows) = omap kept rows.
Proof.
  induction rows as [| row rows IH]; [reflexivity |].
  rewrite process_rows_cons. unfold loop_app. cbn [table_rows].
  rewrite IH. unfold process_rows at 1. cbn [fold_left].
  unfold loop_body, kept. cbn [omap list_omap].
  fold kept. unfold kept at 2.
  destruct (normalize row); reflexivity.
Qed.

End TableFacts.

(** C3 (as stated, refuted). A price cell that holds one space is blank, yet
    it is not replaced by the default: it is trimmed to the empty string,
    which is no number, and the row, whose product is not empty, is dropped
    with a diagnostic instead of being kept with a price of zero. *)
Lemma whitespace_price_is_not_defaulted :
  get row_space_price "price" = Some " "
  /\ PyStr.truthy (product_of row_space_price) = true
  /\ number_of row_space_price "price" = ""
  /\ PyFloat.float (number_of row_space_price "qty")
     = Some (S754_finite false 4503599627370496 (-51))
  /\ normalize row_space_price = Invalid
  /\ process_rows [row_space_price] = mkLoop [] [(Stderr, MsgSkipRow row_space_price)].
Proof. repeat split; reflexivity. Qed.

(** C3 (amended). When the price or the quantity is missing (no such
    column, or a row too short to reach it) or is the empty string, the
    text that is parsed is the default 0, read as zero; a row with a
    product whose other number parses is then kept, with 0 retained for
    the defaulted cell and the total computed from zero. *)
Theorem missing_or_empty_number_defaults_to_zero (row : Row) (key : string) :
  get row key = None \/ get row key = Some "" ->
  number_of row key = "0"
  /\ PyFloat.float (number_of row key) = Some (S754_zero false)
  /\ (key = "price" -> PyStr.truthy (product_of row) = true ->
      forall q, PyFloat.float (number_of row "qty") = Some q ->
      normalize row =
        Valid (mkItem (product_of row) "0" (number_of row "qty")
                 (PyFloat.format_2f (PyFloat.mul (S754_zero false) q))))
  /\ (key = "qty" -> PyStr.truthy (product_of row) = true ->
      forall p, PyFloat.float (number_of row "price") = Some p ->
      normalize row =
        Valid (mkItem (product_of row) (number_of row "price") "0"
                 (PyFloat.format_2f (PyFloat.mul p (S754_zero false))))).
Proof.
  intros Hmissing.
  assert (Hzero : number_of row key = "0").
  { unfold number_of. destruct Hmissing as [-> | ->]; reflexivity. }
  split; [exact Hzero |]. split; [now rewrite Hzero |].
  split; intros -> Hp x Hx.
  - rewrite (normalize_valid row (S754_zero false) x Hp); [| now rewrite Hzero | exact Hx].
    now rewrite Hzero.
  - rewrite (normalize_valid row x (S754_zero false) Hp); [| exact Hx | now rewrite Hzero].
    now rewrite Hzero.
Qed.

Lemma missing_or_empty_number_defaults_to_zero_witness :
  (get row_short "qty" = None \/ get row_short "qty" = Some "")
  /\ get row_empty_price "price" = Some ""
  /\ normalize row_empty_price = Valid (mkItem "Nut" "0" "2" "0.00")
  /\ number_of row_short "qty" = "0".
Proof.
  split; [left; reflexivity |]. split; [reflexivity |]. split.
  - destruct (missing_or_empty_number_defaults_to_zero row_empty_price "price")
      as (_ & _ & Hprice & _); [right; reflexivity |].
    rewrite (Hprice eq_refl eq_refl _ eq_refl). reflexivity.
  - apply (missing_or_empty_number_defaults_to_zero row_short "qty").
    left. reflexivity.
Defined.

(** C4 (as stated, refuted). The price inf parses, to the float infinity;
    the row is valid and its total is the text inf, which has no fraction
    digits at all. *)
Lemma infinite_total_has_no_fraction_digits :
  PyStr.truthy (product_of row_inf_price) = true
  /\ PyFloat.float (number_of row_inf_price "price") = Some (S754_infinity false)
  /\ PyFloat.float (number_of row_inf_price "qty")
     = Some (S754_finite false 4503599627370496 (-52))
  /\ normalize row_inf_price = Valid (mkItem "Widget" "inf" "1" "inf")
  /\ PyFloat.two_fraction_digits "inf" = false.
Proof. repeat split; reflexivity. Qed.

(** C4 (amended). For a row with a product whose trimmed, comma-normalised
    price and quantity parse to the floats p and q, the line item keeps the
    two normalised texts and its total is the float product p*q in the
    format .2f.  When that product is finite the total has exactly two
    fraction digits and is a nearest number of hundredths to the product;
    when it is infinite or not a number the total is inf, -inf or nan.
    The file with header product,price,qty and the rows Widget,10.00,2 and
    Gadget,5,3 gives two table rows, in this order, with totals 20.00 and
    15.00. *)
Theorem total_is_the_product_in_two_fraction_digits
    (row : Row) (p q : spec_float) :
  PyStr.truthy (product_of row) = true ->
  PyFloat.float (number_of row "price") = Some p ->
  PyFloat.float (number_of row "qty") = Some q ->
  normalize row =
    Valid (mkItem (product_of row) (number_of row "price") (number_of row "qty")
             (PyFloat.format_2f (PyFloat.mul p q)))
  /\ (PyFloat.is_finite (PyFloat.mul p q) = true ->
      PyFloat.two_fraction_digits (PyFloat.format_2f (PyFloat.mul p q)) = true
      /\ match PyFloat.mul p q with
         | S754_finite s m e =>
             exists n,
               PyFloat.hundredths_of_text (PyFloat.format_2f (PyFloat.mul p q))
               = Some (s, n)
               /\ PyFloat.nearest_hundredth m e n
         | S754_zero s =>
             PyFloat.hundredths_of_text (PyFloat.format_2f (PyFloat.mul p q))
             = Some (s, 0%Z)
         | _ => False
         end)
  /\ (PyFloat.is_finite (PyFloat.mul p q) = false ->
      PyFloat.format_2f (PyFloat.mul p q) = "inf"
      \/ PyFloat.format_2f (PyFloat.mul p q) = "-inf"
      \/ PyFloat.format_2f (PyFloat.mul p q) = "nan")
  /\ table_rows
       (process_rows
          (rows_of ["product"; "price"; "qty"]
             [["Widget"; "10.00"; "2"]; ["Gadget"; "5"; "3"]]))
     = [mkItem "Widget" "10.00" "2" "20.00"; mkItem "Gadget" "5" "3" "15.00"].
Proof.
  intros Hp Hx Hy.
  split; [now apply normalize_valid |].
  split; [apply format_2f_finite |].
  split; [apply format_2f_not_finite | reflexivity].
Qed.

Lemma total_is_the_product_in_two_fraction_digits_witness :
  PyStr.truthy (product_of row_widget) = true
  /\ PyFloat.float (number_of row_widget "price")
     = Some (S754_finite false 5629499534213120 (-49))
  /\ PyFloat.float (number_of row_widget "qty")
     = Some (S754_finite false 4503599627370496 (-51))
  /\ normalize row_widget = Valid (mkItem "Widget" "10.00" "2" "20.00").
Proof.
  split; [reflexivity |]. split; [reflexivity |]. split; [reflexivity |].
  destruct (total_is_the_product_in_two_fraction_digits row_widget
              (S754_finite false 5629499534213120 (-49))
              (S754_finite false 4503599627370496 (-51)))
    as (Hitem & _); [reflexivity | reflexivity | reflexivity |].
  rewrite Hitem. reflexivity.
Defined.

(** Every item of the table is what the normaliser made of a row: its
    product is not empty and its price and quantity parse. *)
Lemma table_rows_valid (rows_raw : list Row) (item : LineItem) :
  In item (table_rows (process_rows rows_raw)) ->
  PyStr.truthy (product item) = true
  /\ (exists p, PyFloat.float (price item) = Some p)
  /\ (exists q, PyFloat.float (qty item) = Some q)
  /\ exists row, In row rows_raw /\ normalize row = Valid item.
Proof.
  rewrite table_rows_omap. intros Hin.
  apply list_elem_of_In, list_elem_of_omap in Hin as (row & Hrow & Hkept).
  unfold kept in Hkept.
  destruct (normalize row) as [| | item'] eqn:Hn; try discriminate.
  injection Hkept as ->.
  destruct (normalize_Valid_inv row item Hn) as (Hp & _ & _ & _ & p & q & Hx & Hy & _).
  split; [exact Hp |]. split; [now exists p |]. split; [now exists q |].
  exists row. split; [now apply list_elem_of_In | exact Hn].
Qed.

(* ================================================================== *)
(** * The font loader *)
(* ================================================================== *)

Section FontFacts.

Lemma registrations_app tr1 tr2 :
  registrations (tr1 ++ tr2) = (registrations tr1 + registrations tr2)%nat.
Proof. unfold registrations. now rewrite List.filter_app, List.length_app. Qed.

(** Once the flag is set the function returns at once. *)
Lemma register_arial_registered fe s :
  font_registered s = true -> register_arial fe s = (Return true, s).
Proof. intros H. unfold register_arial. now rewrite H. Qed.

(** The five ways a call can go. *)
Lemma register_arial_cases fe s :
  (font_registered s = true /\ register_arial fe s = (Return true, s))
  \/ (font_registered s = false /\ register_arial fe s = (Return false, s))
  \/ (font_registered s = false
      /\ register_arial fe s
         = (Return true, mkProc true (trace s ++ [EvRegisterFont true])))
  \/ (font_registered s = false
      /\ register_arial fe s
         = (Return false, mkProc false (trace s ++ [EvRegisterFont false])))
  \/ (font_registered s = false
      /\ exists e, is_Exception e = false
         /\ register_arial fe s
            = (Raise e, mkProc false (trace s ++ [EvRegisterFont false]))).
Proof.
  unfold register_arial.
  destruct (font_registered s) eqn:Hflag; [left; auto |]. right.
  destruct (String.eqb (sys_platform fe) "win32"); cbn [negb]; [| left; auto].
  destruct (isfile_arial fe); cbn [negb]; [| left; auto]. right.
  unfold try_except_Exception, bind, registerFont, log, raise, set_font_registered, ret.
  destruct (registerFont_raises fe) as [e |]; cbn.
  - rewrite Hflag. destruct (is_Exception e) eqn:He; [right; left; auto |].
    right; right. split; [reflexivity |]. now exists e.
  - left. auto.
Qed.

Lemma register_arial_true_sets_flag fe s s' :
  register_arial fe s = (Return true, s') -> font_registered s' = true.
Proof.
  intros H.
  destruct (register_arial_cases fe s)
    as [(Hf & E) | [(_ & E) | [(_ & E) | [(_ & E) | (_ & e & _ & E)]]]];
    rewrite E in H; inversion H; subst; auto.
Qed.

(** What a call adds to the trace is at most one registration event. *)
Lemma register_arial_trace fe s r s' :
  register_arial fe s = (r, s') ->
  exists evs, trace s' = (trace s ++ evs)%list
              /\ existsb row_event evs = false
              /\ (forall doc, ~ In (EvBuild doc) evs).
Proof.
  intros H.
  destruct (register_arial_cases fe s)
    as [(_ & E) | [(_ & E) | [(_ & E) | [(_ & E) | (_ & e & _ & E)]]]];
    rewrite E in H; inversion H; subst; cbn [trace].
  1-2: exists []; rewrite app_nil_r; repeat split; auto.
  all: eexists [_]; repeat split; cbn; intuition discriminate.
Qed.

Lemma register_arial_invariant fe s r s' :
  font_invariant s -> register_arial fe s = (r, s') -> font_invariant s'.
Proof.
  intros [Hle Hzero] H. unfold font_invariant.
  destruct (register_arial_cases fe s)
    as [(_ & E) | [(_ & E) | [(Hf & E) | [(Hf & E) | (Hf & e & _ & E)]]]];
    rewrite E in H; inversion H; subst; cbn [trace font_registered];
    rewrite ?registrations_app; cbn; auto;
    specialize (Hzero Hf); lia.
Qed.

Lemma register_calls_invariant fes s :
  font_invariant s -> font_invariant (snd (register_calls fes s)).
Proof.
  revert s. induction fes as [| fe fes IH]; intros s Hs; [exact Hs |].
  cbn [register_calls].
  destruct (register_arial fe s) as [r s1] eqn:E1.
  specialize (IH s1 (register_arial_invariant fe s r s1 Hs E1)).
  destruct (register_calls fes s1) as [rs s2]. exact IH.
Qed.

Lemma register_calls_registered fes s :
  font_registered s = true ->
  register_calls fes s = (repeat (Return true) (List.length fes), s).
Proof.
  intros Hs. induction fes as [| fe fes IH]; [reflexivity |].
  cbn [register_calls]. rewrite (register_arial_registered fe s Hs), IH.
  reflexivity.
Qed.

End FontFacts.

(** C2 (as stated, refuted). A failed registration is not remembered: with
    a font file that cannot be loaded, the second call attempts the
    registration a second time; and when the font file appears between two
    calls, the second call returns true after the first returned false. *)
Lemma failed_registration_is_retried :
  register_calls [fe_broken; fe_broken] initial
  = ([Return false; Return false],
     mkProc false [EvRegisterFont false; EvRegisterFont false])
  /\ attempts (trace (snd (register_calls [fe_broken; fe_broken] initial))) = 2%nat
  /\ register_calls [fe_no_file; fe_ok] initial
     = ([Return false; Return true], mkProc true [EvRegisterFont true]).
Proof. repeat split; reflexivity. Qed.

(** C2 (amended). Only success is cached: once a call has returned true,
    every later call in the process returns true and leaves the state and
    the trace as they are, so no registration is attempted again; and in any
    sequence of calls from the start of the process the font is registered
    at most once. *)
Theorem successful_registration_is_cached
    (fe : FontEnv) (s s' : Proc) (later : list FontEnv) :
  register_arial fe s = (Return true, s') ->
  register_calls later s' = (repeat (Return true) (List.length later), s')
  /\ forall calls : list FontEnv,
       (registrations (trace (snd (register_calls calls initial))) <= 1)%nat.
Proof.
  intros H. split.
  - apply register_calls_registered. exact (register_arial_true_sets_flag fe s s' H).
  - intros calls. apply (register_calls_invariant calls initial).
    split; cbn; auto.
Qed.

Lemma successful_registration_is_cached_witness :
  register_arial fe_ok initial = (Return true, mkProc true [EvRegisterFont true])
  /\ register_calls [fe_broken; fe_no_file; fe_ok] (mkProc true [EvRegisterFont true])
     = ([Return true; Return true; Return true], mkProc true [EvRegisterFont true]).
Proof.
  split; [reflexivity |].
  apply (successful_registration_is_cached fe_ok initial
           (mkProc true [EvRegisterFont true]) [fe_broken; fe_no_file; fe_ok]).
  reflexivity.
Defined.

(* ================================================================== *)
(** * The renderer *)
(* ================================================================== *)

Section MonadFacts.

Lemma bind_inv {A B} (c : M A) (k : A -> M B) s r s' :
  bind c k s = (r, s') ->
  (exists a s1, c s = (Return a, s1) /\ k a s1 = (r, s'))
  \/ (exists e, c s = (Raise e, s') /\ r = Raise e).
Proof.
  unfold bind. destruct (c s) as [[a | e] s1]; intros H.
  - left. eauto.
  - right. inversion H; subst. eauto.
Qed.

Lemma bind_Return {A B} (c : M A) (k : A -> M B) s a s1 :
  c s = (Return a, s1) -> bind c k s = k a s1.
Proof. intros H. unfold bind. now rewrite H. Qed.

Lemma bind_Raise {A B} (c : M A) (k : A -> M B) s e s1 :
  c s = (Raise e, s1) -> bind c k s = (Raise e, s1).
Proof. intros H. unfold bind. now rewrite H. Qed.

Lemma call_inv o s r s' :
  call o s = (r, s') ->
  s' = s /\ ((o = None /\ r = Return tt) \/ (exists e, o = Some e /\ r = Raise e)).
Proof.
  unfold call, ret, raise. destruct o as [e |]; intros [= <- <-]; split; eauto.
Qed.

Lemma Paragraph_inv rl t st s r s' :
  Paragraph rl t st s = (r, s') ->
  s' = s /\ (r = Return (mkParagraph t st) \/ exists e, r = Raise e).
Proof.
  unfold Paragraph, bind, call, ret, raise.
  destruct (Paragraph_raises rl t st); intros [= <- <-]; split; eauto.
Qed.

End MonadFacts.

(** One statement of a construction: either it returned and the rest
    runs in the same state, or it raised and the goal is closed. *)
Ltac step_paragraph H :=
  let E := fresh "E" in
  apply bind_inv in H as [(? & ? & E & H) | (? & E & ->)];
  [ apply Paragraph_inv in E as (-> & [[= ->] | (? & [=])])
  | apply Paragraph_inv in E as (-> & _); split; eauto ].

Ltac step_call H :=
  let E := fresh "E" in
  apply bind_inv in H as [(? & ? & E & H) | (? & E & ->)];
  [ apply call_inv in E as (-> & _)
  | apply call_inv in E as (-> & _); split; eauto ].

Section RenderFacts.

Lemma data_rows_inv rl rows s r s' :
  data_rows rl rows s = (r, s') ->
  s' = s /\ (r = Return (map cells_of rows) \/ exists e, r = Raise e).
Proof.
  revert s r s'. induction rows as [| row rows IH]; intros s r s' H.
  - inversion H; subst. split; auto.
  - cbn [data_rows] in H.
    do 4 step_paragraph H.
    apply bind_inv in H as [(rest & s5 & E5 & H) | (e & E & ->)];
      [| apply IH in E as (-> & _); split; eauto].
    apply IH in E5 as (-> & [[= ->] | (e & [=])]).
    inversion H; subst. split; auto.
Qed.

(** The construction touches neither the flag nor the trace, and when it
    returns, it returns the story of the rows it was given. *)
Lemma make_document_inv rl path rows s r s' :
  make_document rl path rows s = (r, s') ->
  s' = s /\ (r = Return (story_of path rows) \/ exists e, r = Raise e).
Proof.
  intros H. unfold make_document in H.
  do 3 step_call H. do 5 step_paragraph H.
  apply bind_inv in H as [(body & s5 & E5 & H) | (e & E & ->)];
    [| apply data_rows_inv in E as (-> & _); split; eauto].
  apply data_rows_inv in E5 as (-> & [[= ->] | (e & [=])]).
  do 2 step_call H.
  inversion H; subst. split; auto.
Qed.

(** The trace of a call of the renderer: the events of the font check,
    then at most the one [doc.build], of the story of the given rows. *)
Lemma build_invoice_pdf_trace fe rl path rows s r s' :
  build_invoice_pdf fe rl path rows s = (r, s') ->
  exists evs, trace s' = (trace s ++ evs)%list
              /\ existsb row_event evs = false
              /\ (forall doc, In (EvBuild doc) evs -> doc = story_of path rows).
Proof.
  intros H. unfold build_invoice_pdf in H.
  apply bind_inv in H as [(ok & s1 & E1 & H) | (e & E & ->)].
  2: { apply register_arial_trace in E as (evs & Ht & Hrow & Hb).
       exists evs. repeat split; auto. intros doc Hin. now apply Hb in Hin. }
  apply register_arial_trace in E1 as (evs & Ht & Hrow & Hb).
  destruct ok; cbn [negb] in H.
  2: { inversion H; subst. exists evs. repeat split; auto.
       intros doc Hin. now apply Hb in Hin. }
  apply bind_inv in H as [(doc & s2 & E2 & H) | (e & E & ->)].
  2: { apply make_document_inv in E as (-> & _).
       exists evs. repeat split; auto. intros doc Hin. now apply Hb in Hin. }
  apply make_document_inv in E2 as (-> & [[= ->] | (e & [=])]).
  assert (Hs' : trace s' = (trace s1 ++ [EvBuild (story_of path rows)])%list).
  { unfold try_except_Exception, bind, log, call, ret, raise in H.
    destruct (build_raises rl (story_of path rows)) as [e |]; cbn in H;
      [destruct (is_Exception e) |]; inversion H; reflexivity. }
  exists (evs ++ [EvBuild (story_of path rows)])%list.
  rewrite Hs', Ht, <- app_assoc. split; [reflexivity |]. split.
  - rewrite existsb_app, Hrow. reflexivity.
  - intros doc Hin. apply in_app_or in Hin as [Hin | [[= <-] | []]];
      [now apply Hb in Hin | reflexivity].
Qed.

End RenderFacts.

(** C1 (as stated, refuted). With the font registered, a product text that
    ReportLab rejects as markup makes the paragraph constructor raise while
    the table is put together, outside the guarded call: the exception
    reaches the caller, no false is returned.  And an exception that does
    not derive from [Exception] passes the guard around [doc.build]. *)
Lemma construction_error_escapes_build_invoice_pdf :
  register_arial fe_ok initial = (Return true, mkProc true [EvRegisterFont true])
  /\ Paragraph_raises rl_bad_markup (Plain (product item_bad_markup)) Cell
     = Some (Exception "ValueError")
  /\ build_invoice_pdf fe_ok rl_bad_markup pdf_path [item_bad_markup] initial
     = (Raise (Exception "ValueError"), mkProc true [EvRegisterFont true])
  /\ build_invoice_pdf fe_ok rl_interrupted pdf_path [item_widget] initial
     = (Raise (BaseException "KeyboardInterrupt"),
        mkProc true [EvRegisterFont true; EvBuild (story_of pdf_path [item_widget])]).
Proof. repeat split; reflexivity. Qed.

(** C1 (amended). With the font registered and the story constructed,
    whenever [doc.build], which lays the document out and writes the file,
    raises an exception derived from [Exception], the renderer returns
    false and raises nothing; the story it tried to build is the one of the
    rows it was given. *)
Theorem build_failure_is_returned_as_false
    (fe : FontEnv) (rl : ReportLab) (output_path : string)
    (rows : list LineItem) (s s1 s2 : Proc) (doc : document) (e : exn) :
  register_arial fe s = (Return true, s1) ->
  make_document rl output_path rows s1 = (Return doc, s2) ->
  build_raises rl doc = Some e ->
  is_Exception e = true ->
  build_invoice_pdf fe rl output_path rows s
  = (Return false, mkProc (font_registered s1) (trace s1 ++ [EvBuild doc]))
  /\ doc = story_of output_path rows.
Proof.
  intros Hreg Hdoc Hbuild He.
  pose proof (make_document_inv _ _ _ _ _ _ Hdoc) as (-> & [[= ->] | (x & [=])]).
  split; [| reflexivity].
  unfold build_invoice_pdf.
  rewrite (bind_Return _ _ _ _ _ Hreg). cbn [negb].
  rewrite (bind_Return _ _ _ _ _ Hdoc).
  unfold try_except_Exception, bind, log, call, ret, raise.
  rewrite Hbuild. cbn. now rewrite He.
Qed.

Lemma build_failure_is_returned_as_false_witness :
  build_raises rl_disk_full (story_of pdf_path [item_widget]) = Some (Exception "OSError")
  /\ build_invoice_pdf fe_ok rl_disk_full pdf_path [item_widget] initial
     = (Return false,
        mkProc true [EvRegisterFont true; EvBuild (story_of pdf_path [item_widget])]).
Proof.
  split; [reflexivity |].
  apply (build_failure_is_returned_as_false fe_ok rl_disk_full pdf_path [item_widget]
           initial (mkProc true [EvRegisterFont true]) (mkProc true [EvRegisterFont true])
           (story_of pdf_path [item_widget]) (Exception "OSError"));
    reflexivity.
Defined.

(* ================================================================== *)
(** * The top level *)
(* ================================================================== *)

Section MainFacts.

Lemma existsb_product_In names :
  existsb (String.eqb "product") names = true <-> In "product" names.
Proof.
  rewrite existsb_exists. split.
  - intros (x & Hin & Heq). apply String.eqb_eq in Heq. now subst.
  - intros Hin. exists "product". split; [exact Hin | apply String.eqb_refl].
Qed.

Lemma schema_rejected_without_product names :
  ~ In "product" names -> schema_rejected (Some names) = true.
Proof.
  intros Hnot. destruct names as [| n names]; [reflexivity |].
  unfold schema_rejected.
  destruct (existsb (String.eqb "product") (n :: names)) eqn:E; [| reflexivity].
  apply existsb_product_In in E. contradiction.
Qed.

(** The run on a header without the product column, step by step. *)
Lemma main_schema_exit w names ok s1 :
  isfile_csv w = true ->
  register_arial (font_at_startup w) initial = (Return ok, s1) ->
  makedirs_raises w = None ->
  open_raises w = None ->
  csv_header w = Return (Some names) ->
  ~ In "product" names ->
  run w = (1%Z,
           (trace s1 ++ (if ok then [] else [EvPrint Stderr MsgFontWarning])
            ++ [EvMakedirs; EvOpenCsv; EvReadHeader; EvPrint Stderr MsgSchemaError])%list).
Proof.
  intros Hfile Hreg Hmk Hopen Hhead Hnot.
  unfold run, main. rewrite Hfile. cbn [negb].
  rewrite (bind_Return _ _ _ _ _ Hreg).
  rewrite Hmk, Hopen, Hhead.
  cbv beta iota zeta delta [bind log call lift ret raise print sys_exit].
  rewrite (schema_rejected_without_product names Hnot).
  destruct ok; cbn; rewrite <- ?app_assoc; reflexivity.
Qed.

End MainFacts.

(** C9. When the header of the file has no product column, the run prints
    the schema error on the error stream and exits with code 1; up to that
    point only the font check, the creation of the output directory and the
    reading of the header have happened: no data row is read, processed or
    reported, and the run is the same whatever follows the header. *)
Theorem missing_product_column_exits_before_any_row
    (w : World) (names : list string) (ok : bool) (s1 : Proc) :
  isfile_csv w = true ->
  register_arial (font_at_startup w) initial = (Return ok, s1) ->
  makedirs_raises w = None ->
  open_raises w = None ->
  csv_header w = Return (Some names) ->
  ~ In "product" names ->
  run w = (1%Z,
           (trace s1 ++ (if ok then [] else [EvPrint Stderr MsgFontWarning])
            ++ [EvMakedirs; EvOpenCsv; EvReadHeader; EvPrint Stderr MsgSchemaError])%list)
  /\ existsb row_event (snd (run w)) = false
  /\ forall records, run (with_records w records) = run w.
Proof.
  intros Hfile Hreg Hmk Hopen Hhead Hnot.
  pose proof (main_schema_exit w names ok s1 Hfile Hreg Hmk Hopen Hhead Hnot) as Hrun.
  split; [exact Hrun |]. split.
  - rewrite Hrun. cbn [snd].
    apply register_arial_trace in Hreg as (evs & Ht & Hrow & _).
    cbn in Ht. rewrite Ht, !existsb_app, Hrow.
    destruct ok; reflexivity.
  - intros records. rewrite Hrun.
    apply (main_schema_exit (with_records w records) names ok s1); assumption.
Qed.

Lemma missing_product_column_exits_before_any_row_witness :
  ~ In "product" ["name"; "price"; "qty"]
  /\ run world_no_product
     = (1%Z, [EvRegisterFont true; EvMakedirs; EvOpenCsv; EvReadHeader;
              EvPrint Stderr MsgSchemaError]).
Proof.
  assert (Hnot : ~ In "product" ["name"; "price"; "qty"])
    by (cbn; intuition discriminate).
  split; [exact Hnot |].
  apply (missing_product_column_exits_before_any_row world_no_product
           ["name"; "price"; "qty"] true (mkProc true [EvRegisterFont true]));
    solve [reflexivity | exact Hnot].
Defined.

Section TraceFacts.

Lemma emits_ret {A} P (a : A) : emits P (ret a).
Proof. intros s r s' [= <- <-]. exists []. now rewrite app_nil_r. Qed.

Lemma emits_raise {A} P e : emits P (@raise A e).
Proof. intros s r s' [= <- <-]. exists []. now rewrite app_nil_r. Qed.

Lemma emits_log P ev : P ev -> emits P (log ev).
Proof. intros Hev s r s' [= <- <-]. exists [ev]. split; [reflexivity | auto]. Qed.

Lemma emits_call P o : emits P (call o).
Proof. destruct o; [apply emits_raise | apply emits_ret]. Qed.

Lemma emits_bind {A B} P (c : M A) (k : A -> M B) :
  emits P c -> (forall a, emits P (k a)) -> emits P (bind c k).
Proof.
  intros Hc Hk s r s' H.
  apply bind_inv in H as [(a & s1 & E & H) | (e & E & ->)].
  - apply Hc in E as (evs1 & Ht1 & H1). apply Hk in H as (evs2 & Ht2 & H2).
    exists (evs1 ++ evs2)%list. rewrite Ht2, Ht1, <- app_assoc.
    split; [reflexivity | now apply Forall_app].
  - now apply Hc in E.
Qed.

Lemma emits_bind_lift {A B} P (x : result A) (k : A -> M B) :
  (forall a, x = Return a -> emits P (k a)) -> emits P (bind (lift x) k).
Proof.
  intros Hk. destruct x as [a | e].
  - intros s r s' H. unfold bind, lift, ret in H. now apply (Hk a eq_refl) in H.
  - intros s r s' H. unfold bind, lift, raise in H. inversion H; subst.
    exists []. now rewrite app_nil_r.
Qed.

Lemma emits_print_all P out :
  (forall st m, P (EvPrint st m)) -> emits P (print_all out).
Proof.
  intros HP. induction out as [| [st m] out IH]; [apply emits_ret |].
  cbn [print_all]. apply emits_bind; [apply emits_log, HP | intros _; exact IH].
Qed.

Lemma emits_no_build {A} (P : event -> Prop) (c : M A) :
  (forall ev, (forall doc, ev <> EvBuild doc) -> P ev) ->
  (forall s r s', c s = (r, s') ->
     exists evs, trace s' = (trace s ++ evs)%list
                 /\ forall doc, ~ In (EvBuild doc) evs) ->
  emits P c.
Proof.
  intros HP Hc s r s' H. apply Hc in H as (evs & Ht & Hb).
  exists evs. split; [exact Ht |].
  apply List.Forall_forall. intros ev Hin. apply HP.
  intros doc ->. exact (Hb doc Hin).
Qed.

Lemma builds_the_table_other w ev :
  (forall doc, ev <> EvBuild doc) -> builds_the_table w ev.
Proof. intros Hne doc ->. now destruct (Hne doc). Qed.

Lemma emits_register_arial w fe : emits (builds_the_table w) (register_arial fe).
Proof.
  apply emits_no_build; [apply builds_the_table_other |].
  intros s r s' H. apply register_arial_trace in H as (evs & Ht & _ & Hb). eauto.
Qed.

(** Whatever [main] builds is the story of the table rows of its file. *)
Lemma main_emits w : emits (builds_the_table w) (main w).
Proof.
  assert (Hprint : forall st m, builds_the_table w (EvPrint st m))
    by (intros st m; apply builds_the_table_other; discriminate).
  assert (Hlog : forall ev, (forall doc, ev <> EvBuild doc) ->
                   emits (builds_the_table w) (log ev))
    by (intros ev Hne; apply emits_log, builds_the_table_other, Hne).
  unfold main. destruct (isfile_csv w); cbn [negb].
  2: { apply emits_bind; [apply emits_log, Hprint | intros _; apply emits_raise]. }
  apply emits_bind; [apply emits_register_arial | intros ok].
  apply emits_bind.
  { destruct ok; cbn [negb]; [apply emits_ret | apply emits_log, Hprint]. }
  intros _.
  apply emits_bind; [apply Hlog; discriminate | intros _].
  apply emits_bind; [apply emits_call | intros _].
  apply emits_bind; [apply Hlog; discriminate | intros _].
  apply emits_bind; [apply emits_call | intros _].
  apply emits_bind; [apply Hlog; discriminate | intros _].
  apply emits_bind_lift. intros fieldnames Hhead.
  destruct (schema_rejected fieldnames) eqn:Hschema.
  { apply emits_bind; [apply emits_log, Hprint | intros _; apply emits_raise]. }
  destruct fieldnames as [names |]; [| discriminate Hschema].
  apply emits_bind; [apply Hlog; discriminate | intros _].
  apply emits_bind_lift. intros records Hrec.
  change (default [] (Some names)) with names.
  apply emits_bind; [apply emits_print_all, Hprint | intros _].
  destruct (table_rows (process_rows (rows_of names records))) eqn:Htable; cbn [negb].
  { apply emits_bind; [apply emits_log, Hprint | intros _; apply emits_raise]. }
  rewrite <- Htable.
  apply emits_bind.
  { intros s r s' H. apply build_invoice_pdf_trace in H as (evs & Ht & _ & Hb).
    exists evs. split; [exact Ht |].
    apply List.Forall_forall. intros ev Hin doc ->.
    exists names, records. repeat split; auto. }
  intros built. destruct built; cbn [negb].
  2: { apply emits_bind; [apply emits_log, Hprint | intros _; apply emits_raise]. }
  apply emits_bind; [apply emits_log, Hprint | intros _].
  destruct (isfile_pdf w); [| apply emits_ret].
  apply emits_bind; [apply emits_log, Hprint | intros _].
  apply emits_bind; [apply Hlog; discriminate | intros _].
  apply emits_call.
Qed.

Lemma run_builds_the_table w doc :
  In (EvBuild doc) (snd (run w)) ->
  exists names records,
    csv_header w = Return (Some names)
    /\ csv_records w = Return records
    /\ doc = story_of pdf_path (table_rows (process_rows (rows_of names records))).
Proof.
  unfold run. destruct (main w initial) as [r s'] eqn:E. cbn [snd].
  apply main_emits in E as (evs & Ht & Hall). cbn in Ht. rewrite Ht.
  intros Hin. rewrite List.Forall_forall in Hall.
  exact (Hall _ Hin doc eq_refl).
Qed.

End TraceFacts.

(** C5. In every run, each line item of [table_rows], the sequence [main]
    hands to the renderer, has a product that is not empty and a price and
    a quantity that [float] accepts, and is what the normaliser made of a
    row of the file: blank and unparsable rows never reach it.  Whatever
    document the run builds is the story of exactly these items. *)
Theorem table_rows_hold_only_valid_items
    (w : World) (names : list string) (records : list (list string))
    (item : LineItem) :
  csv_header w = Return (Some names) ->
  csv_records w = Return records ->
  In item (table_rows (process_rows (rows_of names records))) ->
  PyStr.truthy (product item) = true
  /\ (exists p, PyFloat.float (price item) = Some p)
  /\ (exists q, PyFloat.float (qty item) = Some q)
  /\ (exists row, In row (rows_of names records) /\ normalize row = Valid item)
  /\ forall doc,
       In (EvBuild doc) (snd (run w)) ->
       doc = story_of pdf_path (table_rows (process_rows (rows_of names records))).
Proof.
  intros Hhead Hrec Hin.
  destruct (table_rows_valid _ _ Hin) as (Hp & Hx & Hy & Hrow).
  repeat (split; [assumption |]).
  intros doc Hdoc.
  apply run_builds_the_table in Hdoc as (names' & records' & Hh & Hr & ->).
  rewrite Hhead in Hh. rewrite Hrec in Hr.
  injection Hh as <-. injection Hr as <-. reflexivity.
Qed.

Lemma table_rows_hold_only_valid_items_witness :
  In (mkItem "Gadget" "5" "3" "15.00")
     (table_rows
        (process_rows
           (rows_of ["product"; "price"; "qty"]
              [["   "; "abc"; "1,5"]; ["Bolt"; "abc"; "2"]; ["Gadget"; "5"; "3"]])))
  /\ PyStr.truthy "Gadget" = true
  /\ In (EvBuild (story_of pdf_path [mkItem "Gadget" "5" "3" "15.00"]))
       (snd (run world_mixed)).
Proof.
  assert (H : In (mkItem "Gadget" "5" "3" "15.00")
                (table_rows
                   (process_rows
                      (rows_of ["product"; "price"; "qty"]
                         [["   "; "abc"; "1,5"]; ["Bolt"; "abc"; "2"];
                          ["Gadget"; "5"; "3"]]))))
    by (vm_compute; left; reflexivity).
  split; [exact H |]. split.
  - apply (table_rows_hold_only_valid_items world_mixed _ _ _ eq_refl eq_refl H).
  - vm_compute. do 7 right. left. reflexivity.
Defined.

(* ================================================================== *)
(** * File names *)
(* ================================================================== *)

Section FilenameFacts.
Import PyStr.

Lemma in_replace old new s c :
  In c (list_ascii_of_string (replace old new s)) ->
  (c = new /\ In old (list_ascii_of_string s))
  \/ (c <> old /\ In c (list_ascii_of_string s)).
Proof.
  induction s as [| a s IH]; cbn; [tauto |].
  destruct (Ascii.eqb_spec a old) as [-> | Hne].
  - intros [<- | Hin]; [left; auto |]. destruct (IH Hin) as [[? ?] | [? ?]]; auto.
  - intros [<- | Hin]; [right; auto |]. destruct (IH Hin) as [[? ?] | [? ?]]; auto.
Qed.

Lemma replace_absent old new s :
  ~ In old (list_ascii_of_string s) -> replace old new s = s.
Proof.
  induction s as [| a s IH]; cbn; [reflexivity |]. intros Hnot.
  destruct (Ascii.eqb_spec a old) as [-> | Hne]; [tauto |].
  rewrite IH; tauto.
Qed.

(** A character other than the underscore that is absent stays absent. *)
Lemma fold_replace_keeps_absent l s c :
  c <> "_"%char ->
  ~ In c (list_ascii_of_string s) ->
  ~ In c (list_ascii_of_string (fold_left (fun p a => replace a "_" p) l s)).
Proof.
  intros Hc. revert s. induction l as [| a l IH]; intros s Hnot; [exact Hnot |].
  cbn [fold_left]. apply IH. intros Hin.
  apply in_replace in Hin as [[-> _] | [_ Hin]]; tauto.
Qed.

Lemma fold_replace_removes l s c :
  In c l -> c <> "_"%char ->
  ~ In c (list_ascii_of_string (fold_left (fun p a => replace a "_" p) l s)).
Proof.
  intros Hin Hc. revert s. induction l as [| a l IH]; intros s; [destruct Hin |].
  cbn [fold_left]. destruct (ascii_dec a c) as [-> | Hne].
  - apply fold_replace_keeps_absent; [exact Hc |]. intros Hin'.
    apply in_replace in Hin' as [[-> _] | [? _]]; tauto.
  - destruct Hin as [-> | Hin]; [tauto | now apply IH].
Qed.

Lemma fold_replace_clean l s :
  (forall c, In c l -> ~ In c (list_ascii_of_string s)) ->
  fold_left (fun p a => replace a "_" p) l s = s.
Proof.
  induction l as [| a l IH]; intros Hclean; [reflexivity |].
  cbn [fold_left]. rewrite replace_absent by (apply Hclean; now left).
  apply IH. intros c Hc. apply Hclean. now right.
Qed.

Lemma in_lstrip s c :
  In c (list_ascii_of_string (lstrip s)) -> In c (list_ascii_of_string s).
Proof.
  induction s as [| a s IH]; cbn; [tauto |].
  destruct (isspace a); cbn; tauto.
Qed.

Lemma in_rstrip s c :
  In c (list_ascii_of_string (rstrip s)) -> In c (list_ascii_of_string s).
Proof.
  induction s as [| a s IH]; cbn [rstrip]; [tauto |].
  destruct (rstrip s) as [| b r].
  - destruct (isspace a); cbn; tauto.
  - cbn in *. tauto.
Qed.

Lemma in_strip s c :
  In c (list_ascii_of_string (strip s)) -> In c (list_ascii_of_string s).
Proof. intros H. now apply in_lstrip, in_rstrip. Qed.

(** What is left of [lstrip] is empty or starts with a character that is
    no white space. *)
Lemma lstrip_head s : truthy (lstrip s) = true ->
  exists c t, lstrip s = String c t /\ isspace c = false.
Proof.
  induction s as [| a s IH]; cbn; [discriminate |].
  destruct (isspace a) eqn:Ha; [exact IH |]. intros _. eauto.
Qed.

Lemma rstrip_cons a s :
  rstrip (String a s)
  = match rstrip s with
    | EmptyString => if isspace a then EmptyString else String a EmptyString
    | r => String a r
    end.
Proof. reflexivity. Qed.

Lemma rstrip_idempotent s : rstrip (rstrip s) = rstrip s.
Proof.
  induction s as [| a s IH]; [reflexivity |]. rewrite rstrip_cons.
  destruct (rstrip s) as [| b r] eqn:E.
  - destruct (isspace a) eqn:Ha; [reflexivity |]. cbn. now rewrite Ha.
  - rewrite rstrip_cons, IH. reflexivity.
Qed.

Lemma rstrip_head c t :
  isspace c = false -> exists r, rstrip (String c t) = String c r.
Proof.
  intros Hc. cbn [rstrip]. destruct (rstrip t); [rewrite Hc |]; eauto.
Qed.

Lemma strip_idempotent s : strip (strip s) = strip s.
Proof.
  unfold strip.
  assert (H : lstrip (rstrip (lstrip s)) = rstrip (lstrip s)).
  { destruct (truthy (lstrip s)) eqn:Ht.
    - destruct (lstrip_head s Ht) as (c & t & -> & Hc).
      destruct (rstrip_head c t Hc) as (r & ->). cbn. now rewrite Hc.
    - destruct (lstrip s); [reflexivity | discriminate]. }
  rewrite H. apply rstrip_idempotent.
Qed.

Lemma strip_empty_all_space t :
  strip t = "" -> forall a, In a (list_ascii_of_string t) -> isspace a = true.
Proof.
  unfold strip. induction t as [| a t IH]; [cbn; tauto |].
  cbn [lstrip]. destruct (isspace a) eqn:Ha.
  - intros E b Hb. cbn in Hb. destruct Hb as [<- | Hb]; [exact Ha | now apply IH].
  - rewrite rstrip_cons. destruct (rstrip t); [rewrite Ha |]; discriminate.
Qed.

Lemma safe_filename_unfold s :
  safe_filename s
  = if truthy (strip (replace_invalid s)) then strip (replace_invalid s) else "invoice".
Proof. reflexivity. Qed.

Lemma invoice_is_clean c :
  In c (list_ascii_of_string "invoice") -> ~ In c invalid.
Proof.
  cbn. intros H Hbad.
  repeat (destruct H as [<- | H];
          [cbn in Hbad; repeat (destruct Hbad as [Hbad | Hbad]; [discriminate |]); tauto |]).
  exact H.
Qed.

Lemma invalid_not_underscore c : In c invalid -> c <> "_"%char.
Proof.
  cbn. intros H ->.
  repeat (destruct H as [H | H]; [discriminate |]). exact H.
Qed.

Lemma safe_filename_chars s c :
  In c (list_ascii_of_string (safe_filename s)) -> ~ In c invalid.
Proof.
  rewrite safe_filename_unfold.
  destruct (truthy (strip (replace_invalid s))); [| apply invoice_is_clean].
  intros Hin Hbad. apply in_strip in Hin.
  exact (fold_replace_removes invalid s c Hbad (invalid_not_underscore c Hbad) Hin).
Qed.

Lemma safe_filename_trimmed s :
  truthy (safe_filename s) = true /\ strip (safe_filename s) = safe_filename s.
Proof.
  rewrite safe_filename_unfold.
  destruct (truthy (strip (replace_invalid s))) eqn:E.
  - split; [exact E | apply strip_idempotent].
  - split; reflexivity.
Qed.

Lemma safe_filename_clean s :
  (forall c, In c invalid -> ~ In c (list_ascii_of_string s)) ->
  strip s = s -> truthy s = true -> safe_filename s = s.
Proof.
  intros Hclean Hstrip Hne. rewrite safe_filename_unfold.
  unfold replace_invalid. rewrite (fold_replace_clean invalid s Hclean).
  now rewrite Hstrip, Hne.
Qed.

End FilenameFacts.

(** X1. The name [safe_filename] returns holds none of the nine characters
    that a Windows file name may not hold. *)
Theorem safe_filename_has_no_invalid_character (product : string) (c : ascii) :
  In c invalid -> ~ In c (list_ascii_of_string (safe_filename product)).
Proof. intros Hbad Hin. exact (safe_filename_chars product c Hin Hbad). Qed.

Lemma safe_filename_has_no_invalid_character_witness :
  In "/"%char invalid
  /\ safe_filename " a/b:c*?.pdf " = "a_b_c__.pdf"
  /\ ~ In "/"%char (list_ascii_of_string (safe_filename " a/b:c*?.pdf ")).
Proof.
  assert (H : In "/"%char invalid) by (cbn; tauto).
  split; [exact H |]. split; [reflexivity |].
  apply (safe_filename_has_no_invalid_character " a/b:c*?.pdf " "/"%char H).
Defined.

(** X2. The name [safe_filename] returns is never empty and has no white
    space at either end. *)
Theorem safe_filename_is_a_trimmed_name (product : string) :
  safe_filename product <> ""
  /\ PyStr.strip (safe_filename product) = safe_filename product.
Proof.
  destruct (safe_filename_trimmed product) as [Hne Hs].
  split; [| exact Hs]. intros E. rewrite E in Hne. discriminate.
Qed.

(** X3. A product that is empty or holds white space only gets the name
    invoice. *)
Theorem blank_product_is_named_invoice (product : string) :
  PyStr.strip product = "" -> safe_filename product = "invoice".
Proof.
  intros Hblank. rewrite safe_filename_unfold.
  assert (Hclean : replace_invalid product = product).
  { unfold replace_invalid. apply fold_replace_clean. intros c Hbad Hin.
    pose proof (strip_empty_all_space product Hblank c Hin) as Hc.
    cbn in Hbad. repeat (destruct Hbad as [<- | Hbad]; [discriminate Hc |]).
    exact Hbad. }
  now rewrite Hclean, Hblank.
Qed.

Lemma blank_product_is_named_invoice_witness :
  PyStr.strip "   " = "" /\ safe_filename "   " = "invoice".
Proof.
  split; [reflexivity |]. apply (blank_product_is_named_invoice "   "). reflexivity.
Defined.

(** X4. [safe_filename] is idempotent: a name it returned is returned
    unchanged. *)
Theorem safe_filename_is_idempotent (product : string) :
  safe_filename (safe_filename product) = safe_filename product.
Proof.
  destruct (safe_filename_trimmed product) as [Hne Hs].
  apply safe_filename_clean; [| exact Hs | exact Hne].
  intros c Hbad Hin. exact (safe_filename_chars product c Hin Hbad).
Qed.

(** X5. A name with none of the invalid characters, not empty and with no
    white space at either end, is returned as it is. *)
Theorem clean_name_is_kept (product : string) :
  (forall c, In c invalid -> ~ In c (list_ascii_of_string product)) ->
  PyStr.strip product = product ->
  PyStr.truthy product = true ->
  safe_filename product = product.
Proof. apply safe_filename_clean. Qed.

Lemma clean_name_is_kept_witness :
  PyStr.strip "Widget 2" = "Widget 2" /\ safe_filename "Widget 2" = "Widget 2".
Proof.
  split; [reflexivity |].
  apply (clean_name_is_kept "Widget 2"); [| reflexivity | reflexivity].
  intros c Hbad Hin. cbn in Hbad, Hin.
  repeat (destruct Hbad as [<- | Hbad];
          [repeat (destruct Hin as [Hin | Hin]; [discriminate |]); exact Hin |]).
  exact Hbad.
Defined.

(* ================================================================== *)
(** * The row loop as a whole *)
(* ================================================================== *)

Section LoopShape.





End LoopShape.



(** X8. The texts kept in a table row are normalised: the product has no
    white space at either end, and the price and the quantity have no white
    space at either end and no comma. *)
Theorem table_row_fields_are_normalised (rows_raw : list Row) (item : LineItem) :
  In item (table_rows (process_rows rows_raw)) ->
  PyStr.strip (product item) = product item
  /\ PyStr.strip (price item) = price item
  /\ PyStr.strip (qty item) = qty item
  /\ ~ In ","%char (list_ascii_of_string (price item))
  /\ ~ In ","%char (list_ascii_of_string (qty item)).
Proof.
  intros Hin.
  destruct (table_rows_valid _ _ Hin) as (_ & _ & _ & row & _ & Hn).
  destruct (normalize_Valid_inv row item Hn) as (_ & -> & -> & -> & _).
  assert (Htrim : forall key, PyStr.strip (number_of row key) = number_of row key).
  { intros key. unfold number_of. now rewrite strip_replace, strip_idempotent. }
  assert (Hcomma : forall key, ~ In ","%char (list_ascii_of_string (number_of row key))).
  { intros key H. unfold number_of in H.
    apply in_replace in H as [[[=] _] | [Hne _]]. now apply Hne. }
  split; [unfold product_of; apply strip_idempotent |].
  repeat split; auto.
Qed.

Lemma table_row_fields_are_normalised_witness :
  In (mkItem "Tea" "1.50" "2" "3.00")
     (table_rows (process_rows [csv_row ["  Tea "; " 1,50 "; " 2"]]))
  /\ PyStr.strip "Tea" = "Tea".
Proof.
  assert (H : In (mkItem "Tea" "1.50" "2" "3.00")
                (table_rows (process_rows [csv_row ["  Tea "; " 1,50 "; " 2"]])))
    by (vm_compute; left; reflexivity).
  split; [exact H |].
  apply (table_row_fields_are_normalised _ _ H).
Defined.

(** X9. A row with a product and with neither price nor quantity (columns
    absent from the header, or a row that stops after the product) is kept
    with price 0, quantity 0 and total 0.00. *)
Theorem row_without_numbers_totals_zero (row : Row) :
  PyStr.truthy (product_of row) = true ->
  get row "price" = None ->
  get row "qty" = None ->
  normalize row = Valid (mkItem (product_of row) "0" "0" "0.00").
Proof.
  intros Hp Hprice Hqty.
  assert (Hx : number_of row "price" = "0") by (unfold number_of; now rewrite Hprice).
  assert (Hy : number_of row "qty" = "0") by (unfold number_of; now rewrite Hqty).
  rewrite (normalize_valid row (S754_zero false) (S754_zero false) Hp);
    [| now rewrite Hx | now rewrite Hy].
  now rewrite Hx, Hy.
Qed.

Lemma row_without_numbers_totals_zero_witness :
  PyStr.truthy (product_of row_short) = true
  /\ get row_short "price" = None
  /\ normalize row_short = Valid (mkItem "Nut" "0" "0" "0.00").
Proof.
  split; [reflexivity |]. split; [reflexivity |].
  apply (row_without_numbers_totals_zero row_short); reflexivity.
Defined.

(* ================================================================== *)
(** * More on the font loader and the renderer *)
(* ================================================================== *)

Section RenderMore.

Lemma build_invoice_pdf_no_font fe rl path rows s s1 :
  register_arial fe s = (Return false, s1) ->
  build_invoice_pdf fe rl path rows s = (Return false, s1).
Proof.
  intros H. unfold build_invoice_pdf. now rewrite (bind_Return _ _ _ _ _ H).
Qed.

Lemma build_invoice_pdf_true_inv fe rl path rows s s' :
  build_invoice_pdf fe rl path rows s = (Return true, s') ->
  exists s1,
    register_arial fe s = (Return true, s1)
    /\ build_raises rl (story_of path rows) = None
    /\ s' = mkProc true (trace s1 ++ [EvBuild (story_of path rows)]).
Proof.
  intros H. unfold build_invoice_pdf in H.
  apply bind_inv in H as [(ok & s1 & E1 & H) | (e & _ & [=])].
  destruct ok; cbn [negb] in H; [| discriminate H].
  apply bind_inv in H as [(doc & s2 & E2 & H) | (e & _ & [=])].
  apply make_document_inv in E2 as (-> & [[= ->] | (e & [=])]).
  exists s1. split; [exact E1 |].
  pose proof (register_arial_true_sets_flag _ _ _ E1) as Hflag.
  unfold try_except_Exception, bind, log, call, ret, raise in H.
  destruct (build_raises rl (story_of path rows)) as [e |]; cbn in H.
  - destruct (is_Exception e); discriminate H.
  - injection H as <-. now rewrite Hflag.
Qed.

End RenderMore.

(** X10. [register_arial] returns True exactly when the font is
    registered afterwards: the value it returns is the value of the flag
    after the call.  It raises nothing that derives from [Exception], and
    when it raises the flag is unset. *)
Theorem register_arial_returns_the_flag
    (fe : FontEnv) (s s' : Proc) (r : result bool) :
  register_arial fe s = (r, s') ->
  (forall b, r = Return b -> font_registered s' = b)
  /\ (forall e, r = Raise e -> is_Exception e = false /\ font_registered s' = false).
Proof.
  intros H.
  destruct (register_arial_cases fe s)
    as [(Hf & E) | [(Hf & E) | [(Hf & E) | [(Hf & E) | (Hf & e & He & E)]]]];
    rewrite E in H; injection H as <- <-; split;
    try (intros b [= <-]; cbn; now auto);
    try (intros x [=]; subst; cbn; now auto).
Qed.

Lemma register_arial_returns_the_flag_witness :
  register_arial fe_broken initial = (Return false, mkProc false [EvRegisterFont false])
  /\ font_registered (mkProc false [EvRegisterFont false]) = false.
Proof.
  split; [reflexivity |].
  apply (proj1 (register_arial_returns_the_flag fe_broken initial
                  (mkProc false [EvRegisterFont false]) (Return false) eq_refl)
           false eq_refl).
Defined.

(** X11. The font is loaded only where it can be: a call of
    [register_arial] that changes anything (flag or trace) was made with
    the flag unset, on the platform win32 and with the font file present.
    On any other platform, or without the file, the call leaves the process
    as it was. *)
Theorem registration_is_attempted_only_on_windows_with_the_file
    (fe : FontEnv) (s s' : Proc) (r : result bool) :
  register_arial fe s = (r, s') ->
  s' <> s ->
  font_registered s = false
  /\ sys_platform fe = "win32"
  /\ isfile_arial fe = true.
Proof.
  unfold register_arial.
  destruct (font_registered s); [intros [= _ <-] Hne; now destruct Hne |].
  destruct (String.eqb_spec (sys_platform fe) "win32") as [Hw | Hw]; cbn [negb];
    [| intros [= _ <-] Hne; now destruct Hne].
  destruct (isfile_arial fe); cbn [negb];
    [| intros [= _ <-] Hne; now destruct Hne].
  auto.
Qed.

Lemma registration_is_attempted_only_on_windows_with_the_file_witness :
  register_arial fe_ok initial = (Return true, mkProc true [EvRegisterFont true])
  /\ sys_platform fe_ok = "win32".
Proof.
  split; [reflexivity |].
  apply (registration_is_attempted_only_on_windows_with_the_file fe_ok initial
           (mkProc true [EvRegisterFont true]) (Return true) eq_refl).
  discriminate.
Defined.

(** X12. Without the font nothing is rendered: when the font check in
    [build_invoice_pdf] gives False, the function returns False at once,
    whatever ReportLab would do, and the process is as the font check left
    it: no template, paragraph or table is made and nothing is built. *)
Theorem no_font_no_document
    (fe : FontEnv) (rl : ReportLab) (output_path : string)
    (rows : list LineItem) (s s1 : Proc) :
  register_arial fe s = (Return false, s1) ->
  build_invoice_pdf fe rl output_path rows s = (Return false, s1)
  /\ forall doc, In (EvBuild doc) (trace s1) -> In (EvBuild doc) (trace s).
Proof.
  intros H. split; [now apply build_invoice_pdf_no_font |].
  apply register_arial_trace in H as (evs & -> & _ & Hb).
  intros doc Hin. apply in_app_or in Hin as [Hin | Hin]; [exact Hin |].
  now apply Hb in Hin.
Qed.

Lemma no_font_no_document_witness :
  register_arial fe_no_file initial = (Return false, initial)
  /\ build_invoice_pdf fe_no_file rl_ok pdf_path [item_widget] initial
     = (Return false, initial).
Proof.
  split; [reflexivity |].
  apply (no_font_no_document fe_no_file rl_ok pdf_path [item_widget] initial initial).
  reflexivity.
Defined.

(** X13. [build_invoice_pdf] returns True only after [doc.build] has
    returned normally on the story of exactly the rows it was given, with
    the font registered: the call adds that one build to the trace of the
    font check and leaves the flag set. *)
Theorem true_means_the_document_was_built
    (fe : FontEnv) (rl : ReportLab) (output_path : string)
    (rows : list LineItem) (s s' : Proc) :
  build_invoice_pdf fe rl output_path rows s = (Return true, s') ->
  font_registered s' = true
  /\ build_raises rl (story_of output_path rows) = None
  /\ exists s1,
       register_arial fe s = (Return true, s1)
       /\ trace s' = (trace s1 ++ [EvBuild (story_of output_path rows)])%list.
Proof.
  intros H.
  apply build_invoice_pdf_true_inv in H as (s1 & Hreg & Hb & ->).
  split; [reflexivity |]. split; [exact Hb |]. now exists s1.
Qed.

Lemma true_means_the_document_was_built_witness :
  build_invoice_pdf fe_ok rl_ok pdf_path [item_widget] initial
  = (Return true,
     mkProc true [EvRegisterFont true; EvBuild (story_of pdf_path [item_widget])])
  /\ build_raises rl_ok (story_of pdf_path [item_widget]) = None.
Proof.
  split; [reflexivity |].
  apply (true_means_the_document_was_built fe_ok rl_ok pdf_path [item_widget] initial
           (mkProc true [EvRegisterFont true; EvBuild (story_of pdf_path [item_widget])])).
  reflexivity.
Defined.

(** X14. What is constructed before [doc.build] is the story of the rows:
    when the construction returns, the table is the header row followed by
    one row of four cells per line item, in the order of the items (the
    product as it is, the price and the total with the rouble sign, the
    quantity with the unit), and the process state is untouched. *)
Theorem the_table_has_one_row_per_item
    (rl : ReportLab) (output_path : string) (rows : list LineItem)
    (s s' : Proc) (doc : document) :
  make_document rl output_path rows s = (Return doc, s') ->
  s' = s
  /\ doc_path doc = output_path
  /\ doc_table doc = header_cells :: map cells_of rows
  /\ List.length (doc_table doc) = S (List.length rows)
  /\ (forall cells, In cells (doc_table doc) -> List.length cells = 4%nat)
  /\ forall i item,
       nth_error rows i = Some item ->
       nth_error (doc_table doc) (S i)
       = Some [mkParagraph (Plain (product item)) Cell;
               mkParagraph (WithUnit (price item) Roubles) Cell;
               mkParagraph (WithUnit (qty item) Pieces) Cell;
               mkParagraph (WithUnit (total item) Roubles) Cell].
Proof.
  intros H.
  apply make_document_inv in H as (-> & [[= ->] | (e & [=])]).
  split; [reflexivity |]. split; [reflexivity |]. split; [reflexivity |].
  cbn [story_of doc_table]. split; [cbn; now rewrite List.length_map |].
  split.
  - intros cells [<- | Hin]; [reflexivity |].
    apply List.in_map_iff in Hin as (item & <- & _). reflexivity.
  - intros i item Hi. cbn [nth_error].
    now rewrite List.nth_error_map, Hi.
Qed.

Lemma the_table_has_one_row_per_item_witness :
  make_document rl_ok pdf_path [item_widget] initial
  = (Return (story_of pdf_path [item_widget]), initial)
  /\ List.length (doc_table (story_of pdf_path [item_widget])) = 2%nat.
Proof.
  split; [reflexivity |].
  apply (the_table_has_one_row_per_item rl_ok pdf_path [item_widget] initial initial
           (story_of pdf_path [item_widget])).
  reflexivity.
Defined.

(* ================================================================== *)
(** * More on the top level *)
(* ================================================================== *)

Section MainMore.

Lemma print_all_run out s :
  print_all out s
  = (Return tt, mkProc (font_registered s) (trace s ++ events_of out)).
Proof.
  revert s. induction out as [| [st m] out IH]; intros s.
  - cbn. rewrite app_nil_r. now destruct s.
  - cbn [print_all]. unfold bind, print, log. rewrite IH. cbn.
    now rewrite <- app_assoc.
Qed.

Lemma no_build_in_events_of out doc : ~ In (EvBuild doc) (events_of out).
Proof.
  unfold events_of. intros H. apply List.in_map_iff in H as (p & [=] & _).
Qed.

Lemma schema_accepted names :
  In "product" names -> schema_rejected (Some names) = false.
Proof.
  intros Hin. destruct names as [| n names]; [destruct Hin |].
  unfold schema_rejected.
  now rewrite (proj2 (existsb_product_In (n :: names)) Hin).
Qed.

(** From the start of [main] to the end of the loop over the rows. *)
Lemma main_after_rows w ok s1 names records :
  isfile_csv w = true ->
  register_arial (font_at_startup w) initial = (Return ok, s1) ->
  makedirs_raises w = None ->
  open_raises w = None ->
  csv_header w = Return (Some names) ->
  In "product" names ->
  csv_records w = Return records ->
  main w initial
  = finish w (process_rows (rows_of names records))
      (after_rows ok s1 (process_rows (rows_of names records))).
Proof.
  intros Hfile Hreg Hmk Hopen Hhead Hin Hrec.
  unfold main. rewrite Hfile. cbn [negb].
  rewrite (bind_Return _ _ _ _ _ Hreg).
  rewrite Hmk, Hopen, Hhead, Hrec.
  cbv beta iota zeta delta [bind log call lift ret raise print].
  rewrite (schema_accepted names Hin).
  change (default [] (Some names)) with names.
  destruct ok; cbn [negb font_registered trace];
    rewrite print_all_run; cbn [font_registered trace];
    unfold after_rows; rewrite <- ?app_assoc; reflexivity.
Qed.

End MainMore.

(** X15. When no row of the file reaches the table (the file has no data
    rows, or all are blank or unparsable), the run ends after the loop with
    the no-data message and exit code 1: the renderer is not called, so the
    font is not checked again and nothing is built. *)
Theorem no_valid_row_stops_before_the_renderer
    (w : World) (names : list string) (records : list (list string))
    (ok : bool) (s1 : Proc) :
  isfile_csv w = true ->
  register_arial (font_at_startup w) initial = (Return ok, s1) ->
  makedirs_raises w = None ->
  open_raises w = None ->
  csv_header w = Return (Some names) ->
  In "product" names ->
  csv_records w = Return records ->
  table_rows (process_rows (rows_of names records)) = [] ->
  run w
  = (1%Z,
     (trace (after_rows ok s1 (process_rows (rows_of names records)))
      ++ [EvPrint Stderr MsgNoData])%list)
  /\ forall doc, ~ In (EvBuild doc) (snd (run w)).
Proof.
  intros Hfile Hreg Hmk Hopen Hhead Hin Hrec Hempty.
  assert (Hrun : run w
                 = (1%Z,
                    (trace (after_rows ok s1 (process_rows (rows_of names records)))
                     ++ [EvPrint Stderr MsgNoData])%list)).
  { unfold run.
    rewrite (main_after_rows w ok s1 names records Hfile Hreg Hmk Hopen Hhead Hin Hrec).
    unfold finish. rewrite Hempty. reflexivity. }
  split; [exact Hrun |].
  intros doc Hdoc. rewrite Hrun in Hdoc. cbn [snd] in Hdoc.
  apply register_arial_trace in Hreg as (evs & Ht & _ & Hb).
  unfold initial in Ht. cbn [trace app] in Ht.
  unfold after_rows in Hdoc. cbn [trace] in Hdoc. rewrite Ht in Hdoc.
  repeat (apply in_app_or in Hdoc as [Hdoc | Hdoc]).
  - now apply Hb in Hdoc.
  - destruct ok; cbn in Hdoc; intuition discriminate.
  - cbn in Hdoc. intuition discriminate.
  - now apply no_build_in_events_of in Hdoc.
  - cbn in Hdoc. intuition discriminate.
Qed.

Lemma no_valid_row_stops_before_the_renderer_witness :
  In "product" ["product"; "price"; "qty"]
  /\ table_rows
       (process_rows
          (rows_of ["product"; "price"; "qty"]
             [["   "; "abc"; "1,5"]; ["Bolt"; "abc"; "2"]])) = []
  /\ fst (run world_no_data) = 1%Z.
Proof.
  assert (Hin : In "product" ["product"; "price"; "qty"]) by (left; reflexivity).
  split; [exact Hin |]. split; [reflexivity |].
  pose proof (no_valid_row_stops_before_the_renderer world_no_data
                ["product"; "price"; "qty"]
                [["   "; "abc"; "1,5"]; ["Bolt"; "abc"; "2"]]
                true (mkProc true [EvRegisterFont true])
                eq_refl eq_refl eq_refl eq_refl eq_refl Hin eq_refl eq_refl)
    as [Hrun _].
  now rewrite Hrun.
Defined.

(** X16. When the table is not empty, the run ends by the answer of the
    renderer.  If it answers False, the run prints the PDF error and exits
    with code 1.  If it answers True, the run prints the done message and,
    only if the output file exists, the opening message before it starts the
    viewer; it then exits with code 0. *)
Theorem the_run_ends_by_the_answer_of_the_renderer
    (w : World) (names : list string) (records : list (list string))
    (ok built : bool) (s1 s3 : Proc) :
  isfile_csv w = true ->
  register_arial (font_at_startup w) initial = (Return ok, s1) ->
  makedirs_raises w = None ->
  open_raises w = None ->
  csv_header w = Return (Some names) ->
  In "product" names ->
  csv_records w = Return records ->
  table_rows (process_rows (rows_of names records)) <> [] ->
  build_invoice_pdf (font_at_render w) (reportlab w) pdf_path
    (table_rows (process_rows (rows_of names records)))
    (after_rows ok s1 (process_rows (rows_of names records)))
  = (Return built, s3) ->
  startfile_raises w = None ->
  run w
  = if built then
      (0%Z,
       (trace s3 ++ [EvPrint Stdout MsgDone]
        ++ (if isfile_pdf w then [EvPrint Stdout MsgOpening; EvStartfile] else []))%list)
    else (1%Z, (trace s3 ++ [EvPrint Stderr MsgPdfError])%list).
Proof.
  intros Hfile Hreg Hmk Hopen Hhead Hin Hrec Hne Hbuild Hstart.
  unfold run.
  rewrite (main_after_rows w ok s1 names records Hfile Hreg Hmk Hopen Hhead Hin Hrec).
  unfold finish.
  destruct (table_rows (process_rows (rows_of names records))) as [| item items] eqn:Ht;
    [now destruct Hne |].
  cbn [negb]. rewrite (bind_Return _ _ _ _ _ Hbuild).
  destruct built; cbn [negb]; [| reflexivity].
  rewrite Hstart. destruct (isfile_pdf w); cbn; rewrite <- ?app_assoc; reflexivity.
Qed.

Lemma the_run_ends_by_the_answer_of_the_renderer_witness :
  run world_good
  = (0%Z,
     [EvRegisterFont true; EvMakedirs; EvOpenCsv; EvReadHeader; EvReadRows;
      EvPrint Stdout (MsgProcessing "Widget");
      EvBuild (story_of pdf_path [item_widget]);
      EvPrint Stdout MsgDone; EvPrint Stdout MsgOpening; EvStartfile]).
Proof.
  apply (the_run_ends_by_the_answer_of_the_renderer world_good
           ["product"; "price"; "qty"] [["Widget"; "10.00"; "2"]]
           true true (mkProc true [EvRegisterFont true])
           (mkProc true
              [EvRegisterFont true; EvMakedirs; EvOpenCsv; EvReadHeader; EvReadRows;
               EvPrint Stdout (MsgProcessing "Widget");
               EvBuild (story_of pdf_path [item_widget])]));
    try reflexivity.
  - left. reflexivity.
  - vm_compute. discriminate.
Defined.

Section Invariants.

Lemma triple_ret {A} (I : Proc -> Prop) (a : A) : triple I (ret a) (fun _ => I).
Proof. intros s r s' Hs [= <- <-]. exact Hs. Qed.

Lemma triple_raise {A} (I : Proc -> Prop) e : triple I (@raise A e) (fun _ => I).
Proof. intros s r s' Hs [= <- <-]. exact Hs. Qed.

Lemma triple_call (I : Proc -> Prop) o : triple I (call o) (fun _ => I).
Proof. destruct o; [apply triple_raise | apply triple_ret]. Qed.

Lemma triple_lift {A} (I : Proc -> Prop) (x : result A) : triple I (lift x) (fun _ => I).
Proof. destruct x; [apply triple_ret | apply triple_raise]. Qed.

Lemma triple_bind {A B} (I : Proc -> Prop) (c : M A) (k : A -> M B) :
  triple I c (fun _ => I) ->
  (forall a, triple I (k a) (fun _ => I)) ->
  triple I (bind c k) (fun _ => I).
Proof.
  intros Hc Hk s r s' Hs H.
  apply bind_inv in H as [(a & s1 & E & H) | (e & E & ->)].
  - exact (Hk a s1 r s' (Hc s _ s1 Hs E) H).
  - exact (Hc s _ s' Hs E).
Qed.

Lemma nothing_built_log ev :
  (forall doc, ev <> EvBuild doc) -> triple nothing_built (log ev) (fun _ => nothing_built).
Proof.
  intros Hne s r s' [Hf Hb] [= <- <-]. split; [exact Hf |]. cbn [trace].
  intros doc Hin. apply in_app_or in Hin as [Hin | [-> | []]];
    [exact (Hb doc Hin) | exact (Hne doc eq_refl)].
Qed.

Lemma nothing_built_print_all out :
  triple nothing_built (print_all out) (fun _ => nothing_built).
Proof.
  intros s r s' [Hf Hb] H. rewrite print_all_run in H. injection H as <- <-.
  split; [exact Hf |]. cbn [trace]. intros doc Hin.
  apply in_app_or in Hin as [Hin | Hin];
    [exact (Hb doc Hin) | exact (no_build_in_events_of out doc Hin)].
Qed.

Lemma register_arial_off_windows fe s :
  sys_platform fe <> "win32" ->
  font_registered s = false ->
  register_arial fe s = (Return false, s).
Proof.
  intros Hw Hf. unfold register_arial. rewrite Hf.
  destruct (String.eqb_spec (sys_platform fe) "win32"); [contradiction | reflexivity].
Qed.

Lemma nothing_built_register_arial fe :
  sys_platform fe <> "win32" ->
  triple nothing_built (register_arial fe) (fun _ => nothing_built).
Proof.
  intros Hw s r s' [Hf Hb] H.
  rewrite (register_arial_off_windows fe s Hw Hf) in H. injection H as <- <-.
  now split.
Qed.

Lemma nothing_built_build_invoice_pdf fe rl path rows :
  sys_platform fe <> "win32" ->
  triple nothing_built (build_invoice_pdf fe rl path rows) (fun _ => nothing_built).
Proof.
  intros Hw s r s' [Hf Hb] H.
  rewrite (build_invoice_pdf_no_font fe rl path rows s s
             (register_arial_off_windows fe s Hw Hf)) in H.
  injection H as <- <-. now split.
Qed.

(** Off Windows the run keeps the flag unset and builds nothing. *)
Lemma main_nothing_built w :
  sys_platform (font_at_startup w) <> "win32" ->
  sys_platform (font_at_render w) <> "win32" ->
  triple nothing_built (main w) (fun _ => nothing_built).
Proof.
  intros Hs Hr.
  assert (Hprint : forall st m,
            triple nothing_built (print st m) (fun _ => nothing_built))
    by (intros st m; apply nothing_built_log; discriminate).
  unfold main. destruct (isfile_csv w); cbn [negb].
  2: { apply triple_bind; [apply Hprint | intros _; apply triple_raise]. }
  apply triple_bind; [now apply nothing_built_register_arial | intros ok].
  apply triple_bind.
  { destruct ok; cbn [negb]; [apply triple_ret | apply Hprint]. }
  intros _.
  apply triple_bind; [apply nothing_built_log; discriminate | intros _].
  apply triple_bind; [apply triple_call | intros _].
  apply triple_bind; [apply nothing_built_log; discriminate | intros _].
  apply triple_bind; [apply triple_call | intros _].
  apply triple_bind; [apply nothing_built_log; discriminate | intros _].
  apply triple_bind; [apply triple_lift | intros fieldnames].
  destruct (schema_rejected fieldnames).
  { apply triple_bind; [apply Hprint | intros _; apply triple_raise]. }
  apply triple_bind; [apply nothing_built_log; discriminate | intros _].
  apply triple_bind; [apply triple_lift | intros records].
  apply triple_bind; [apply nothing_built_print_all | intros _].
  destruct (negb _).
  { apply triple_bind; [apply Hprint | intros _; apply triple_raise]. }
  apply triple_bind; [now apply nothing_built_build_invoice_pdf | intros built].
  destruct built; cbn [negb].
  2: { apply triple_bind; [apply Hprint | intros _; apply triple_raise]. }
  apply triple_bind; [apply Hprint | intros _].
  destruct (isfile_pdf w); [| apply triple_ret].
  apply triple_bind; [apply Hprint | intros _].
  apply triple_bind; [apply nothing_built_log; discriminate | intros _].
  apply triple_call.
Qed.

(** [main] returns normally only through the last lines: the renderer
    answered True and the done message was printed. *)
Lemma main_return_inv w s' :
  main w initial = (Return tt, s') ->
  exists rows s2 s3,
    rows <> []
    /\ build_invoice_pdf (font_at_render w) (reportlab w) pdf_path rows s2
       = (Return true, s3)
    /\ exists evs, trace s' = (trace s3 ++ EvPrint Stdout MsgDone :: evs)%list.
Proof.
  intros H. unfold main in H.
  destruct (isfile_csv w); cbn [negb] in H;
    [| cbv [bind print log sys_exit raise] in H; discriminate H].
  do 8 (apply bind_inv in H as [(? & ? & _ & H) | (? & _ & [=])]).
  destruct (schema_rejected _);
    [cbv [bind print log sys_exit raise] in H; discriminate H |].
  do 3 (apply bind_inv in H as [(? & ? & _ & H) | (? & _ & [=])]).
  match type of H with
  | context [table_rows ?st] => destruct (table_rows st) as [| item items] eqn:Ht
  end; cbn [negb] in H;
    [cbv [bind print log sys_exit raise] in H; discriminate H |].
  apply bind_inv in H as [(built & s3 & Hb & H) | (? & _ & [=])].
  destruct built; cbn [negb] in H;
    [| cbv [bind print log sys_exit raise] in H; discriminate H].
  eexists (item :: items), _, s3. split; [discriminate |]. split; [exact Hb |].
  cbv [bind print log] in H.
  destruct (isfile_pdf w).
  - destruct (startfile_raises w); cbv [call ret raise] in H; [discriminate H |].
    injection H as <-. cbn [trace]. rewrite <- !app_assoc. eauto.
  - cbv [ret] in H. injection H as <-. cbn [trace]. eauto.
Qed.

End Invariants.

(** X17. On a platform other than win32 no invoice is produced: whatever
    the file and whatever else the environment does, the run never calls
    [doc.build], the font stays unregistered, and [main] does not return
    normally. *)
Theorem off_windows_nothing_is_built (w : World) :
  sys_platform (font_at_startup w) <> "win32" ->
  sys_platform (font_at_render w) <> "win32" ->
  (forall doc, ~ In (EvBuild doc) (snd (run w)))
  /\ font_registered (snd (main w initial)) = false
  /\ fst (main w initial) <> Return tt.
Proof.
  intros Hs Hr.
  assert (Hinit : nothing_built initial) by (split; [reflexivity | intros doc []]).
  destruct (main w initial) as [r s'] eqn:E.
  pose proof (main_nothing_built w Hs Hr initial r s' Hinit E) as [Hf Hb].
  split; [| split].
  - unfold run. rewrite E. exact Hb.
  - exact Hf.
  - cbn [fst]. intros ->.
    apply main_return_inv in E as (rows & s2 & s3 & _ & Hbuild & evs & Ht).
    apply build_invoice_pdf_true_inv in Hbuild as (s1 & _ & _ & ->).
    apply (Hb (story_of pdf_path rows)). rewrite Ht. cbn [trace].
    apply in_or_app. left. apply in_or_app. right. now left.
Qed.

Lemma off_windows_nothing_is_built_witness :
  sys_platform (font_at_startup world_linux) <> "win32"
  /\ run world_linux
     = (1%Z,
        [EvPrint Stderr MsgFontWarning; EvMakedirs; EvOpenCsv; EvReadHeader;
         EvReadRows; EvPrint Stdout (MsgProcessing "Widget");
         EvPrint Stderr MsgPdfError])
  /\ forall doc, ~ In (EvBuild doc) (snd (run world_linux)).
Proof.
  assert (H : "linux" <> "win32") by discriminate.
  split; [exact H |]. split; [reflexivity |].
  apply (off_windows_nothing_is_built world_linux H H).
Defined.

(** X18. [main] returns normally, so that the process exits with code 0,
    only after the renderer has built the document: the font is then
    registered, [doc.build] was called once on a table with at least one
    line item and returned, and the done message was printed after it. *)
Theorem a_normal_return_means_the_invoice_was_built (w : World) (s' : Proc) :
  main w initial = (Return tt, s') ->
  exists rows before after,
    rows <> []
    /\ trace s'
       = (before ++ EvBuild (story_of pdf_path rows)
          :: EvPrint Stdout MsgDone :: after)%list
    /\ build_raises (reportlab w) (story_of pdf_path rows) = None
    /\ fst (run w) = 0%Z.
Proof.
  intros H.
  pose proof H as H0.
  apply main_return_inv in H as (rows & s2 & s3 & Hne & Hbuild & evs & Ht).
  apply build_invoice_pdf_true_inv in Hbuild as (s1 & _ & Hb & ->).
  exists rows, (trace s1), evs. split; [exact Hne |]. split.
  - rewrite Ht. cbn [trace]. now rewrite <- app_assoc.
  - split; [exact Hb |]. unfold run. now rewrite H0.
Qed.

Lemma a_normal_return_means_the_invoice_was_built_witness :
  fst (main world_good initial) = Return tt /\ fst (run world_good) = 0%Z.
Proof.
  split; [reflexivity |].
  destruct (main world_good initial) as [r s'] eqn:E.
  assert (Hr : r = Return tt) by (now inversion E).
  subst r.
  destruct (a_normal_return_means_the_invoice_was_built world_good s' E)
    as (rows & before & after & _ & _ & _ & Hexit).
  exact Hexit.
Defined.

(** X19. Rows are processed independently and in order: the table is made
    of the line items of the valid rows in the order of the file, and the
    loop over two lists of rows one after the other gives the table and the
    printed lines of the first followed by those of the second. *)
Theorem rows_are_processed_independently (rows1 rows2 : list Row) :
  table_rows (process_rows (rows1 ++ rows2))
  = (table_rows (process_rows rows1) ++ table_rows (process_rows rows2))%list
  /\ printed (process_rows (rows1 ++ rows2))
     = (printed (process_rows rows1) ++ printed (process_rows rows2))%list
  /\ table_rows (process_rows (rows1 ++ rows2)) = omap kept (rows1 ++ rows2)%list.
Proof.
  rewrite process_rows_app. unfold loop_app. cbn [table_rows printed].
  split; [reflexivity |]. split; [reflexivity |].
  now rewrite omap_app, !table_rows_omap.
Qed.

(* ================================================================== *)
(** * Texts with more than one period are no numbers *)
(* ================================================================== *)

Section PeriodFacts.
Import PyFloat.

Lemma count_char_cons c a s :
  count_char c (String a s) = ((if Ascii.eqb a c then 1 else 0) + count_char c s)%nat.
Proof. reflexivity. Qed.

Lemma in_count_char c s :
  In c (list_ascii_of_string s) -> (1 <= count_char c s)%nat.
Proof.
  induction s as [| a s IH]; cbn [list_ascii_of_string In]; [tauto |].
  rewrite count_char_cons. intros [-> | Hin].
  - rewrite Ascii.eqb_refl. lia.
  - specialize (IH Hin). lia.
Qed.

Lemma digit_is_no_period a : is_digit a = true -> Ascii.eqb a "." = false.
Proof.
  intros H. destruct (Ascii.eqb_spec a "."%char) as [-> | _]; [discriminate H | reflexivity].
Qed.

Lemma take_digits_periods s acc cnt :
  count_char "." (snd (take_digits s acc cnt)) = count_char "." s.
Proof.
  revert acc cnt. induction s as [| a s IH]; intros acc cnt; [reflexivity |].
  cbn [take_digits]. destruct (is_digit a) eqn:Ha; [| reflexivity].
  rewrite IH, count_char_cons, (digit_is_no_period a Ha). reflexivity.
Qed.

Lemma take_sign_periods s :
  count_char "." (snd (take_sign s)) = count_char "." s.
Proof.
  destruct s as [| a s]; [reflexivity |].
  destruct a as [[] [] [] [] [] [] [] []]; reflexivity.
Qed.

Lemma e_is_no_period a : Ascii.eqb (tolower a) "e" = true -> Ascii.eqb a "." = false.
Proof.
  intros H. destruct (Ascii.eqb_spec a "."%char) as [-> | _]; [discriminate H | reflexivity].
Qed.

Lemma take_exponent_periods s :
  count_char "." (snd (take_exponent s)) = count_char "." s.
Proof.
  destruct s as [| a s]; [reflexivity |]. cbn [take_exponent].
  destruct (Ascii.eqb (tolower a) "e") eqn:Ha; [| reflexivity].
  pose proof (take_sign_periods s) as Hs.
  destruct (take_sign s) as [eneg s2]. cbn [snd] in Hs.
  pose proof (take_digits_periods s2 0 0) as Hd.
  destruct (take_digits s2 0 0) as [[ev n] s3]. cbn [snd] in Hd.
  destruct (n =? 0)%Z; [reflexivity |]. cbn [snd].
  rewrite count_char_cons, (e_is_no_period a Ha), Hd, Hs. reflexivity.
Qed.

(** [strtod] consumes at most one period. *)
Lemma strtod_periods s x rest :
  strtod s = Some (x, rest) ->
  (count_char "." s <= 1 + count_char "." rest)%nat.
Proof.
  unfold strtod.
  pose proof (take_sign_periods s) as Hs.
  destruct (take_sign s) as [neg s1]. cbn [snd] in Hs.
  pose proof (take_digits_periods s1 0 0) as H1.
  destruct (take_digits s1 0 0) as [[ip ni] s2]. cbn [snd] in H1.
  assert (Hfrac : forall m nf s3,
            match s2 with
            | String "." s2' => take_digits s2' ip 0
            | _ => (ip, 0%Z, s2)
            end = (m, nf, s3) ->
            (count_char "." s2 <= 1 + count_char "." s3)%nat).
  { intros m nf s3 E. destruct s2 as [| a s2'].
    - injection E as _ _ <-. cbn. lia.
    - destruct (Ascii.eqb_spec a "."%char) as [-> | Hne].
      + pose proof (take_digits_periods s2' ip 0) as Hd. rewrite E in Hd.
        cbn [snd] in Hd. rewrite count_char_cons, Hd. cbn. lia.
      + assert (E' : (ip, 0%Z, String a s2') = (m, nf, s3)).
        { destruct a as [[] [] [] [] [] [] [] []]; try exact E. now destruct Hne. }
        injection E' as _ _ <-. lia. }
  destruct (match s2 with String "." s2' => take_digits s2' ip 0 | _ => (ip, 0%Z, s2) end)
    as [[m nf] s3] eqn:E.
  specialize (Hfrac m nf s3 eq_refl).
  destruct (ni + nf =? 0)%Z; [discriminate |].
  pose proof (take_exponent_periods s3) as He.
  destruct (take_exponent s3) as [e s4]. cbn [snd] in He.
  intros [= _ <-]. lia.
Qed.

Lemma match_word_periods word s rest :
  count_char "." word = 0%nat ->
  match_word word s = Some rest ->
  count_char "." s = count_char "." rest.
Proof.
  revert s. induction word as [| w word IH]; intros s Hw; cbn [match_word].
  - now intros [= ->].
  - rewrite count_char_cons in Hw.
    destruct s as [| a s]; [discriminate |].
    destruct (Ascii.eqb_spec (tolower a) w) as [<- | _]; [| discriminate].
    intros H. rewrite count_char_cons, (IH s ltac:(lia) H).
    destruct (Ascii.eqb_spec a "."%char) as [-> | _]; [| reflexivity].
    assert (E : Ascii.eqb (tolower ".") "." = true) by reflexivity.
    rewrite E in Hw. lia.
Qed.

Lemma parse_inf_or_nan_periods s x rest :
  parse_inf_or_nan s = Some (x, rest) -> count_char "." s = count_char "." rest.
Proof.
  unfold parse_inf_or_nan.
  pose proof (take_sign_periods s) as Hs.
  destruct (take_sign s) as [neg s1]. cbn [snd] in Hs. rewrite <- Hs.
  destruct (match_word "inf" s1) as [s2 |] eqn:E1.
  - pose proof (match_word_periods "inf" s1 s2 eq_refl E1) as H1.
    destruct (match_word "inity" s2) as [s3 |] eqn:E2.
    + pose proof (match_word_periods "inity" s2 s3 eq_refl E2) as H2.
      intros [= _ <-]. lia.
    + intros [= _ <-]. exact H1.
  - destruct (match_word "nan" s1) as [s2 |] eqn:E2; [| discriminate].
    pose proof (match_word_periods "nan" s1 s2 eq_refl E2) as H2.
    intros [= _ <-]. exact H2.
Qed.

Lemma skip_leading_periods s :
  count_char "." (skip_leading s) = count_char "." s.
Proof.
  induction s as [| a s IH]; [reflexivity |]. cbn [skip_leading].
  destruct (float_isspace a) eqn:Ha; [| reflexivity].
  rewrite IH, count_char_cons.
  destruct (Ascii.eqb_spec a "."%char) as [-> | _]; [discriminate Ha | reflexivity].
Qed.

Lemma drop_trailing_periods s :
  count_char "." (drop_trailing s) = count_char "." s.
Proof.
  induction s as [| a s IH]; [reflexivity |].
  change (drop_trailing (String a s))
    with (match drop_trailing s with
          | EmptyString => if float_isspace a then EmptyString else String a EmptyString
          | r => String a r
          end).
  rewrite (count_char_cons "." a s), <- IH.
  destruct (drop_trailing s) as [| b r].
  - destruct (float_isspace a) eqn:Ha; [| reflexivity].
    destruct (Ascii.eqb_spec a "."%char) as [-> | _]; [discriminate Ha | reflexivity].
  - reflexivity.
Qed.

Lemma float_inner_periods s x :
  float_inner s = Some x -> (count_char "." s <= 1)%nat.
Proof.
  unfold float_inner.
  rewrite <- (skip_leading_periods s), <- (drop_trailing_periods (skip_leading s)).
  set (t := drop_trailing (skip_leading s)).
  destruct (strtod t) as [[y rest] |] eqn:E.
  - destruct rest; [| discriminate]. intros _.
    apply strtod_periods in E. cbn in E. lia.
  - destruct (parse_inf_or_nan t) as [[y rest] |] eqn:E2; [| discriminate].
    destruct rest; [| discriminate]. intros _.
    apply parse_inf_or_nan_periods in E2. cbn in E2. lia.
Qed.

Lemma strip_underscores_periods prev s t :
  strip_underscores prev s = Some t -> count_char "." t = count_char "." s.
Proof.
  revert prev t. induction s as [| a s IH]; intros prev t; cbn [strip_underscores].
  - destruct (Ascii.eqb prev "_"); [discriminate | now intros [= <-]].
  - destruct (Ascii.eqb_spec a "_"%char) as [-> | Hne].
    + destruct (is_digit prev); [| discriminate]. intros H.
      rewrite (IH _ _ H). reflexivity.
    + destruct (Ascii.eqb prev "_" && negb (is_digit a)); [discriminate |].
      destruct (strip_underscores a s) as [t' |] eqn:E; [| discriminate].
      intros [= <-]. rewrite !count_char_cons, (IH _ _ E). reflexivity.
Qed.

(** What [float] accepts has at most one period. *)
Lemma float_periods s x : float s = Some x -> (count_char "." s <= 1)%nat.
Proof.
  unfold float. destruct (has_underscore s).
  - destruct (strip_underscores "000" s) as [t |] eqn:E; [| discriminate].
    intros H. apply float_inner_periods in H.
    now rewrite (strip_underscores_periods _ _ _ E) in H.
  - apply float_inner_periods.
Qed.

Lemma float_rejects_two_periods s :
  (2 <= count_char "." s)%nat -> float s = None.
Proof.
  intros H. destruct (float s) as [x |] eqn:E; [| reflexivity].
  apply float_periods in E. lia.
Qed.

Lemma count_replace_comma s :
  count_char "." (PyStr.replace "," "." s)
  = (count_char "." s + count_char "," s)%nat.
Proof.
  induction s as [| a s IH]; [reflexivity |].
  rewrite replace_cons, !count_char_cons, IH. unfold PyStr.comma_to_period.
  destruct (Ascii.eqb_spec a ","%char) as [-> | Hc]; [cbn; lia |].
  destruct (Ascii.eqb a "."); lia.
Qed.

Lemma count_lstrip c s :
  PyStr.isspace c = false -> count_char c (PyStr.lstrip s) = count_char c s.
Proof.
  intros Hc. induction s as [| a s IH]; [reflexivity |]. cbn [PyStr.lstrip].
  destruct (PyStr.isspace a) eqn:Ha; [| reflexivity].
  rewrite IH, count_char_cons.
  destruct (Ascii.eqb_spec a c) as [-> | _]; [congruence | reflexivity].
Qed.

Lemma count_rstrip c s :
  PyStr.isspace c = false -> count_char c (PyStr.rstrip s) = count_char c s.
Proof.
  intros Hc. induction s as [| a s IH]; [reflexivity |].
  rewrite rstrip_cons, (count_char_cons c a s), <- IH.
  destruct (PyStr.rstrip s) as [| b r].
  - destruct (PyStr.isspace a) eqn:Ha; [| reflexivity].
    destruct (Ascii.eqb_spec a c) as [-> | _]; [congruence | reflexivity].
  - reflexivity.
Qed.

Lemma count_strip c s :
  PyStr.isspace c = false -> count_char c (PyStr.strip s) = count_char c s.
Proof. intros Hc. unfold PyStr.strip. now rewrite count_rstrip, count_lstrip. Qed.

(** A cell that holds a comma and a period is normalised to a text with
    two periods or more, which [float] rejects. *)
Lemma comma_and_period_do_not_parse row key v :
  get row key = Some v ->
  In ","%char (list_ascii_of_string v) ->
  In "."%char (list_ascii_of_string v) ->
  float (number_of row key) = None.
Proof.
  intros Hget Hcomma Hperiod.
  apply float_rejects_two_periods. unfold number_of. rewrite Hget.
  assert (Hv : PyStr.or_default (Some v) "0" = v).
  { destruct v; [destruct Hcomma | reflexivity]. }
  rewrite Hv, count_replace_comma, !count_strip by reflexivity.
  apply in_count_char in Hcomma, Hperiod. lia.
Qed.

End PeriodFacts.

(* ================================================================== *)
(** * The end of the run does not look at the trace *)
(* ================================================================== *)

Section UniformFacts.

Lemma uniform_ret {A} (a : A) : uniform (ret a).
Proof. intros f. exists (Return a), f, []. intros tr. unfold ret. now rewrite app_nil_r. Qed.

Lemma uniform_raise {A} e : uniform (@raise A e).
Proof. intros f. exists (Raise e), f, []. intros tr. unfold raise. now rewrite app_nil_r. Qed.

Lemma uniform_log ev : uniform (log ev).
Proof. intros f. exists (Return tt), f, [ev]. intros tr. reflexivity. Qed.

Lemma uniform_call o : uniform (call o).
Proof. destruct o; [apply uniform_raise | apply uniform_ret]. Qed.

Lemma uniform_bind {A B} (c : M A) (k : A -> M B) :
  uniform c -> (forall a, uniform (k a)) -> uniform (bind c k).
Proof.
  intros Hc Hk f. destruct (Hc f) as (r & f1 & evs1 & H1).
  destruct r as [a | e].
  - destruct (Hk a f1) as (r2 & f2 & evs2 & H2).
    exists r2, f2, (evs1 ++ evs2)%list. intros tr.
    unfold bind. now rewrite H1, H2, app_assoc.
  - exists (Raise e), f1, evs1. intros tr. unfold bind. now rewrite H1.
Qed.

Lemma uniform_try {A} (body handler : M A) :
  uniform body -> uniform handler -> uniform (try_except_Exception body handler).
Proof.
  intros Hb Hh f. destruct (Hb f) as (r & f1 & evs1 & H1).
  destruct r as [a | e].
  - exists (Return a), f1, evs1. intros tr.
    unfold try_except_Exception. now rewrite H1.
  - destruct (is_Exception e) eqn:He.
    + destruct (Hh f1) as (r2 & f2 & evs2 & H2).
      exists r2, f2, (evs1 ++ evs2)%list. intros tr.
      unfold try_except_Exception. now rewrite H1, He, H2, app_assoc.
    + exists (Raise e), f1, evs1. intros tr.
      unfold try_except_Exception. now rewrite H1, He.
Qed.

Lemma uniform_set_font_registered : uniform set_font_registered.
Proof.
  intros f. exists (Return tt), true, []. intros tr.
  unfold set_font_registered. cbn. now rewrite app_nil_r.
Qed.

Lemma uniform_registerFont fe : uniform (registerFont fe).
Proof.
  unfold registerFont. intros f.
  destruct (registerFont_raises fe) as [e |].
  - exists (Raise e), f, [EvRegisterFont false]. intros tr. reflexivity.
  - exists (Return tt), f, [EvRegisterFont true]. intros tr. reflexivity.
Qed.

Lemma uniform_register_arial fe : uniform (register_arial fe).
Proof.
  intros f. unfold register_arial. destruct f.
  - exists (Return true), true, []. intros tr. cbn. unfold ret. now rewrite app_nil_r.
  - destruct (negb (String.eqb (sys_platform fe) "win32")).
    { exists (Return false), false, []. intros tr. cbn. unfold ret. now rewrite app_nil_r. }
    destruct (negb (isfile_arial fe)).
    { exists (Return false), false, []. intros tr. cbn. unfold ret. now rewrite app_nil_r. }
    assert (Hu : uniform (try_except_Exception
                            (registerFont fe;; set_font_registered;; ret true)
                            (ret false))).
    { apply uniform_try; [| apply uniform_ret].
      apply uniform_bind; [apply uniform_registerFont | intros _].
      apply uniform_bind; [apply uniform_set_font_registered | intros _].
      apply uniform_ret. }
    destruct (Hu false) as (r & f' & evs & H).
    exists r, f', evs. intros tr. cbn [font_registered]. apply H.
Qed.

Lemma uniform_Paragraph rl t st : uniform (Paragraph rl t st).
Proof.
  unfold Paragraph. apply uniform_bind; [apply uniform_call | intros _; apply uniform_ret].
Qed.

Lemma uniform_data_rows rl rows : uniform (data_rows rl rows).
Proof.
  induction rows as [| r rows IH]; cbn [data_rows]; [apply uniform_ret |].
  do 4 (apply uniform_bind; [apply uniform_Paragraph | intros ?]).
  apply uniform_bind; [exact IH | intros ?]. apply uniform_ret.
Qed.

Lemma uniform_make_document rl path rows : uniform (make_document rl path rows).
Proof.
  unfold make_document.
  do 3 (apply uniform_bind; [apply uniform_call | intros ?]).
  do 5 (apply uniform_bind; [apply uniform_Paragraph | intros ?]).
  apply uniform_bind; [apply uniform_data_rows | intros ?].
  do 2 (apply uniform_bind; [apply uniform_call | intros ?]).
  apply uniform_ret.
Qed.

Lemma uniform_build_invoice_pdf fe rl path rows :
  uniform (build_invoice_pdf fe rl path rows).
Proof.
  unfold build_invoice_pdf.
  apply uniform_bind; [apply uniform_register_arial | intros ok].
  destruct (negb ok); [apply uniform_ret |].
  apply uniform_bind; [apply uniform_make_document | intros doc].
  apply uniform_try; [| apply uniform_ret].
  apply uniform_bind; [apply uniform_log | intros _].
  apply uniform_bind; [apply uniform_call | intros _].
  apply uniform_ret.
Qed.

Lemma uniform_finish w st : uniform (finish w st).
Proof.
  unfold finish. destruct (negb _).
  { apply uniform_bind; [apply uniform_log | intros _; apply uniform_raise]. }
  apply uniform_bind; [apply uniform_build_invoice_pdf | intros built].
  destruct (negb built).
  { apply uniform_bind; [apply uniform_log | intros _; apply uniform_raise]. }
  apply uniform_bind; [apply uniform_log | intros _].
  destruct (isfile_pdf w); [| apply uniform_ret].
  apply uniform_bind; [apply uniform_log | intros _].
  apply uniform_bind; [apply uniform_log | intros _].
  apply uniform_call.
Qed.

(** [finish] reads the loop state through the table only. *)
Lemma finish_table w st st' :
  table_rows st = table_rows st' -> finish w st = finish w st'.
Proof. intros H. unfold finish. now rewrite H. Qed.

Lemma rows_of_app names a b :
  rows_of names (a ++ b) = (rows_of names a ++ rows_of names b)%list.
Proof. unfold rows_of. now rewrite List.filter_app, List.map_app. Qed.

Lemma rows_of_cons names record rest :
  record <> [] -> rows_of names (record :: rest) = to_row names record :: rows_of names rest.
Proof. intros H. destruct record; [now destruct H | reflexivity]. Qed.

Lemma events_of_app a b : events_of (a ++ b) = (events_of a ++ events_of b)%list.
Proof. apply List.map_app. Qed.

(** A record without fields gives a row without product. *)
Lemma to_row_nil_get names key : get (to_row names []) key = None.
Proof.
  unfold to_row, dict_zip, get. cbn [cells].
  assert (Hz : zip names [] = @nil (string * string)) by (now destruct names).
  rewrite Hz. cbn [fold_left List.length].
  assert (Hlt : (List.length names <? 0)%nat = false) by (apply Nat.ltb_ge; lia).
  rewrite Hlt. cbn [cells]. rewrite drop_0.
  assert (Hall : forall (l : list string) (d : gmap string (option string)),
            (forall k v, d !! k = Some v -> v = None) ->
            forall k v, fold_left (fun d key => <[key := None]> d) l d !! k = Some v ->
                        v = None).
  { induction l as [| n l IH]; intros d Hd k v; cbn [fold_left]; [apply Hd |].
    apply IH. intros k' v'. rewrite lookup_insert.
    destruct (decide (n = k')); [now intros [= <-] | apply Hd]. }
  destruct (fold_left _ names ∅ !! key) as [v |] eqn:E; [| reflexivity].
  apply (Hall names ∅) in E; [exact E |].
  intros k v'. now rewrite lookup_empty.
Qed.

Lemma valid_product_record_not_nil names record :
  PyStr.truthy (product_of (to_row names record)) = true -> record <> [].
Proof.
  intros H ->. unfold product_of in H. now rewrite to_row_nil_get in H.
Qed.

(** The run on a file with an unparsable row: the row puts exactly one
    event on the trace, its diagnostic on the error stream, and without
    that event the run is the run on the file without the row. *)
Lemma invalid_row_on_run (w : World) (names : list string)
    (before : list (list string)) (record : list string)
    (after : list (list string)) (ok : bool) (s1 : Proc) :
  isfile_csv w = true ->
  register_arial (font_at_startup w) initial = (Return ok, s1) ->
  makedirs_raises w = None ->
  open_raises w = None ->
  csv_header w = Return (Some names) ->
  In "product" names ->
  csv_records w = Return (before ++ record :: after)%list ->
  record <> [] ->
  normalize (to_row names record) = Invalid ->
  exists rest,
    snd (run w)
    = ((trace s1 ++ (if ok then [] else [EvPrint Stderr MsgFontWarning])
        ++ [EvMakedirs; EvOpenCsv; EvReadHeader; EvReadRows]
        ++ events_of (printed (process_rows (rows_of names before))))
       ++ EvPrint Stderr (MsgSkipRow (to_row names record))
       :: (events_of (printed (process_rows (rows_of names after))) ++ rest))%list
    /\ run (with_records w (Return (before ++ after)%list))
       = (fst (run w),
          ((trace s1 ++ (if ok then [] else [EvPrint Stderr MsgFontWarning])
            ++ [EvMakedirs; EvOpenCsv; EvReadHeader; EvReadRows]
            ++ events_of (printed (process_rows (rows_of names before))))
           ++ (events_of (printed (process_rows (rows_of names after))) ++ rest))%list).
Proof.
  intros Hfile Hreg Hmk Hopen Hhead Hin Hrec Hne Hbad.
  set (row := to_row names record).
  assert (Hrow : process_rows [row] = mkLoop [] [(Stderr, MsgSkipRow row)]).
  { unfold process_rows. cbn [fold_left]. unfold loop_body. subst row. now rewrite Hbad. }
  set (stb := process_rows (rows_of names before)).
  set (sta := process_rows (rows_of names after)).
  assert (Hst : process_rows (rows_of names (before ++ record :: after)%list)
                = loop_app stb (loop_app (process_rows [row]) sta)).
  { rewrite rows_of_app, (rows_of_cons names record after Hne), process_rows_app.
    fold row. now rewrite (process_rows_cons row). }
  assert (Hst' : process_rows (rows_of names (before ++ after)%list) = loop_app stb sta).
  { now rewrite rows_of_app, process_rows_app. }
  destruct (uniform_finish w (process_rows (rows_of names (before ++ record :: after)%list))
              (font_registered s1)) as (r & f' & evs & Hfin).
  exists evs.
  assert (Hrun : run w
                 = (exit_status r,
                    (trace (after_rows ok s1
                              (process_rows (rows_of names (before ++ record :: after)%list)))
                     ++ evs)%list)).
  { unfold run.
    rewrite (main_after_rows w ok s1 names _ Hfile Hreg Hmk Hopen Hhead Hin Hrec).
    unfold after_rows at 1. now rewrite Hfin. }
  assert (Hrun' : run (with_records w (Return (before ++ after)%list))
                  = (exit_status r,
                     (trace (after_rows ok s1
                               (process_rows (rows_of names (before ++ after)%list)))
                      ++ evs)%list)).
  { unfold run.
    rewrite (main_after_rows (with_records w (Return (before ++ after)%list)) ok s1 names
               (before ++ after)%list Hfile Hreg Hmk Hopen Hhead Hin eq_refl).
    change (finish (with_records w (Return (before ++ after)%list)))
      with (finish w).
    rewrite (finish_table w (process_rows (rows_of names (before ++ after)%list))
               (process_rows (rows_of names (before ++ record :: after)%list))).
    - unfold after_rows at 1. now rewrite Hfin.
    - rewrite Hst, Hst', Hrow. unfold loop_app. cbn. reflexivity. }
  rewrite Hrun, Hrun'. cbn [fst snd]. unfold after_rows. cbn [trace].
  rewrite Hst, Hst', Hrow. unfold loop_app. cbn [printed].
  rewrite !events_of_app. cbn [events_of map fst snd app].
  split; [| f_equal];
    repeat (rewrite <- app_assoc || (progress cbn [app])); reflexivity.
Qed.

End UniformFacts.

(** C7. In a run that reaches the loop, a row with a product whose
    trimmed, comma-normalised price or quantity does not parse puts exactly
    one event on the trace of the process, the diagnostic on the error
    stream that carries the raw row, between what the rows before it and the
    rows after it print; taking that one event out gives the run on the file
    without the row, with the same exit code.  The row is not in the table,
    so whatever document is built is the one of the file without the row,
    and the other rows are processed as they are without it. *)
Theorem unparsable_row_is_skipped_with_one_diagnostic
    (w : World) (names : list string)
    (before : list (list string)) (record : list string)
    (after : list (list string)) (ok : bool) (s1 : Proc) :
  isfile_csv w = true ->
  register_arial (font_at_startup w) initial = (Return ok, s1) ->
  makedirs_raises w = None ->
  open_raises w = None ->
  csv_header w = Return (Some names) ->
  In "product" names ->
  csv_records w = Return (before ++ record :: after)%list ->
  PyStr.truthy (product_of (to_row names record)) = true ->
  PyFloat.float (number_of (to_row names record) "price") = None
    \/ PyFloat.float (number_of (to_row names record) "qty") = None ->
  (exists rest,
     snd (run w)
     = ((trace s1 ++ (if ok then [] else [EvPrint Stderr MsgFontWarning])
         ++ [EvMakedirs; EvOpenCsv; EvReadHeader; EvReadRows]
         ++ events_of (printed (process_rows (rows_of names before))))
        ++ EvPrint Stderr (MsgSkipRow (to_row names record))
        :: (events_of (printed (process_rows (rows_of names after))) ++ rest))%list
     /\ run (with_records w (Return (before ++ after)%list))
        = (fst (run w),
           ((trace s1 ++ (if ok then [] else [EvPrint Stderr MsgFontWarning])
             ++ [EvMakedirs; EvOpenCsv; EvReadHeader; EvReadRows]
             ++ events_of (printed (process_rows (rows_of names before))))
            ++ (events_of (printed (process_rows (rows_of names after))) ++ rest))%list))
  /\ table_rows (process_rows (rows_of names (before ++ record :: after)%list))
     = table_rows (process_rows (rows_of names (before ++ after)%list))
  /\ (forall doc,
        In (EvBuild doc) (snd (run w)) ->
        doc = story_of pdf_path
                (table_rows (process_rows (rows_of names (before ++ after)%list))))
  /\ process_rows [to_row names record]
     = mkLoop [] [(Stderr, MsgSkipRow (to_row names record))]
  /\ forall rows1 rows2 : list Row,
       table_rows (process_rows (rows1 ++ to_row names record :: rows2)%list)
       = table_rows (process_rows (rows1 ++ rows2)%list)
       /\ on_stream Stdout
            (printed (process_rows (rows1 ++ to_row names record :: rows2)%list))
          = on_stream Stdout (printed (process_rows (rows1 ++ rows2)%list))
       /\ on_stream Stderr
            (printed (process_rows (rows1 ++ to_row names record :: rows2)%list))
          = (on_stream Stderr (printed (process_rows rows1))
             ++ MsgSkipRow (to_row names record)
             :: on_stream Stderr (printed (process_rows rows2)))%list.
Proof.
  intros Hfile Hreg Hmk Hopen Hhead Hin Hrec Hp Hbad.
  pose proof (valid_product_record_not_nil names record Hp) as Hne.
  pose proof (normalize_invalid _ Hp Hbad) as Hinv.
  assert (Hrow : process_rows [to_row names record]
                 = mkLoop [] [(Stderr, MsgSkipRow (to_row names record))]).
  { unfold process_rows. cbn [fold_left]. unfold loop_body. now rewrite Hinv. }
  assert (Hloop : forall rows1 rows2 : list Row,
            process_rows (rows1 ++ to_row names record :: rows2)%list
            = loop_app (process_rows rows1)
                (loop_app (mkLoop [] [(Stderr, MsgSkipRow (to_row names record))])
                   (process_rows rows2))).
  { intros rows1 rows2.
    now rewrite process_rows_app, (process_rows_cons (to_row names record)), Hrow. }
  assert (Htable : table_rows (process_rows (rows_of names (before ++ record :: after)%list))
                   = table_rows (process_rows (rows_of names (before ++ after)%list))).
  { rewrite !rows_of_app, (rows_of_cons names record after Hne), Hloop, process_rows_app.
    reflexivity. }
  split; [exact (invalid_row_on_run w names before record after ok s1
                   Hfile Hreg Hmk Hopen Hhead Hin Hrec Hne Hinv) |].
  split; [exact Htable |]. split.
  - intros doc Hdoc.
    apply run_builds_the_table in Hdoc as (names' & records' & Hh & Hr & ->).
    rewrite Hhead in Hh. rewrite Hrec in Hr.
    injection Hh as <-. injection Hr as <-. now rewrite Htable.
  - split; [exact Hrow |]. intros rows1 rows2.
    rewrite Hloop, process_rows_app. unfold loop_app. cbn [table_rows printed app].
    rewrite !on_stream_app. cbn. repeat split; reflexivity.
Qed.

Lemma unparsable_row_is_skipped_with_one_diagnostic_witness :
  PyStr.truthy (product_of (to_row ["product"; "price"; "qty"] ["Bolt"; "abc"; "2"])) = true
  /\ PyFloat.float
       (number_of (to_row ["product"; "price"; "qty"] ["Bolt"; "abc"; "2"]) "price")
     = None
  /\ exists rest,
       snd (run world_mixed)
       = ([EvRegisterFont true; EvMakedirs; EvOpenCsv; EvReadHeader; EvReadRows]
          ++ EvPrint Stderr (MsgSkipRow row_bad_price)
          :: EvPrint Stdout (MsgProcessing "Gadget") :: rest)%list.
Proof.
  split; [reflexivity |]. split; [reflexivity |].
  destruct (unparsable_row_is_skipped_with_one_diagnostic world_mixed
              ["product"; "price"; "qty"] [["   "; "abc"; "1,5"]] ["Bolt"; "abc"; "2"]
              [["Gadget"; "5"; "3"]] true (mkProc true [EvRegisterFont true])
              eq_refl eq_refl eq_refl eq_refl eq_refl
              (or_introl eq_refl) eq_refl eq_refl (or_introl eq_refl))
    as ((rest & Hrun & _) & _).
  exists rest. rewrite Hrun. reflexivity.
Defined.

(** C10. Every comma of the price and quantity cells becomes a period,
    whatever it stood for: the normalised text has the characters of the
    trimmed cell with each comma replaced and nothing else changed.  So
    1,000 with quantity 1 is read as one (total 1.00).  A cell that holds
    both a comma and a period is normalised to a text with two periods or
    more, which [float] never accepts: when it is the price or the quantity
    of a row with a product, the row is dropped with its diagnostic, in the
    loop and on the trace of the run; 1,234.56 turns into 1.234.56. *)
Theorem every_comma_becomes_a_period (row : Row) (key : string) (i : nat) :
  String.get i (number_of row key)
  = option_map PyStr.comma_to_period
      (String.get i (PyStr.strip (PyStr.or_default (get row key) "0")))
  /\ String.get i (number_of row key) <> Some ","%char
  /\ normalize (csv_row ["Widget"; "1,000"; "1"])
     = Valid (mkItem "Widget" "1.000" "1" "1.00")
  /\ number_of (csv_row ["Widget"; "1,234.56"; "1"]) "price" = "1.234.56"
  /\ PyFloat.float "1.234.56" = None
  /\ process_rows [csv_row ["Widget"; "1,234.56"; "1"]]
     = mkLoop [] [(Stderr, MsgSkipRow (csv_row ["Widget"; "1,234.56"; "1"]))]
  /\ (forall text,
        (2 <= count_char "." text)%nat -> PyFloat.float text = None)
  /\ (forall cell,
        get row key = Some cell ->
        In ","%char (list_ascii_of_string cell) ->
        In "."%char (list_ascii_of_string cell) ->
        (2 <= count_char "." (number_of row key))%nat
        /\ PyFloat.float (number_of row key) = None)
  /\ (forall cell,
        key = "price" \/ key = "qty" ->
        get row key = Some cell ->
        In ","%char (list_ascii_of_string cell) ->
        In "."%char (list_ascii_of_string cell) ->
        PyStr.truthy (product_of row) = true ->
        normalize row = Invalid
        /\ process_rows [row] = mkLoop [] [(Stderr, MsgSkipRow row)])
  /\ (forall (w : World) (names : list string)
             (before : list (list string)) (record : list string)
             (after : list (list string)) (ok : bool) (s1 : Proc) (cell : string),
        row = to_row names record ->
        key = "price" \/ key = "qty" ->
        get row key = Some cell ->
        In ","%char (list_ascii_of_string cell) ->
        In "."%char (list_ascii_of_string cell) ->
        PyStr.truthy (product_of row) = true ->
        isfile_csv w = true ->
        register_arial (font_at_startup w) initial = (Return ok, s1) ->
        makedirs_raises w = None ->
        open_raises w = None ->
        csv_header w = Return (Some names) ->
        In "product" names ->
        csv_records w = Return (before ++ record :: after)%list ->
        exists head tail,
          snd (run w) = (head ++ EvPrint Stderr (MsgSkipRow row) :: tail)%list
          /\ run (with_records w (Return (before ++ after)%list))
             = (fst (run w), (head ++ tail)%list)).
Proof.
  split; [apply get_replace |]. split; [apply replace_no_comma |].
  do 4 (split; [reflexivity |]).
  split; [exact float_rejects_two_periods |].
  assert (Hcount : forall cell,
            get row key = Some cell ->
            In ","%char (list_ascii_of_string cell) ->
            In "."%char (list_ascii_of_string cell) ->
            (2 <= count_char "." (number_of row key))%nat).
  { intros cell Hget Hcomma Hperiod. unfold number_of. rewrite Hget.
    assert (Hv : PyStr.or_default (Some cell) "0" = cell)
      by (destruct cell; [destruct Hcomma | reflexivity]).
    rewrite Hv, count_replace_comma, !count_strip by reflexivity.
    apply in_count_char in Hcomma, Hperiod. lia. }
  assert (Hinv : forall cell,
            key = "price" \/ key = "qty" ->
            get row key = Some cell ->
            In ","%char (list_ascii_of_string cell) ->
            In "."%char (list_ascii_of_string cell) ->
            PyStr.truthy (product_of row) = true ->
            normalize row = Invalid).
  { intros cell Hkey Hget Hcomma Hperiod Hp.
    apply (normalize_invalid row Hp).
    pose proof (float_rejects_two_periods _ (Hcount cell Hget Hcomma Hperiod)) as Hnone.
    destruct Hkey as [-> | ->]; [left | right]; exact Hnone. }
  split; [| split].
  - intros cell Hget Hcomma Hperiod.
    pose proof (Hcount cell Hget Hcomma Hperiod) as H2.
    split; [exact H2 | now apply float_rejects_two_periods].
  - intros cell Hkey Hget Hcomma Hperiod Hp.
    pose proof (Hinv cell Hkey Hget Hcomma Hperiod Hp) as Hn.
    split; [exact Hn |].
    unfold process_rows. cbn [fold_left]. unfold loop_body. now rewrite Hn.
  - intros w names before record after ok s1 cell Hrow Hkey Hget Hcomma Hperiod Hp
           Hfile Hreg Hmk Hopen Hhead Hin Hrec.
    pose proof (Hinv cell Hkey Hget Hcomma Hperiod Hp) as Hn.
    subst row.
    destruct (invalid_row_on_run w names before record after ok s1
                Hfile Hreg Hmk Hopen Hhead Hin Hrec
                (valid_product_record_not_nil names record Hp) Hn)
      as (rest & Hrun & Hrun').
    eexists _, _. split; [exact Hrun | exact Hrun'].
Qed.
